(** * entity/db.go: statement builders, identifier quoting, statement caches
    and the load / insert / update / delete protocol.

    The development follows the source file top-down.  Go strings are byte
    strings ([string]); runes and [int64] values are [Z]; the four
    process-wide statement maps are [gmap]s; calls on the database handle
    are answered by the handle record and recorded in a call log. *)

From Stdlib Require Import ZArith Ascii String List Bool.
From stdpp Require Import base option gmap strings.

Local Open Scope Z_scope.

(** ** Go library functions used by db.go *)

Module Strings.

(** [strings.Join(elems, sep)]. *)
Fixpoint Join (elems : list string) (sep : string) : string :=
  match elems with
  | [] => ""
  | [x] => x
  | x :: rest => x +:+ sep +:+ Join rest sep
  end.

(** Scan of [strings.Split(s, sep)] for a non-empty [sep]: the leftmost
    occurrences of [sep], not overlapping.  [skip] counts the bytes of an
    occurrence that is being stepped over. *)
Fixpoint splitFrom (skip : nat) (s sep : string) : list string :=
  match s with
  | EmptyString => [""]
  | String c s' =>
      match skip with
      | S k => splitFrom k s' sep
      | O =>
          if String.prefix sep s
          then "" :: splitFrom (String.length sep - 1) s' sep
          else match splitFrom 0 s' sep with
               | seg :: rest => String c seg :: rest
               | [] => [String c ""]
               end
      end
  end.

(** [strings.Split(s, sep)], [sep] not empty (db.go passes the one-byte
    dot; the splitting at UTF-8 boundaries that Go does for an empty [sep]
    is not part of this model). *)
Definition Split (s sep : string) : list string := splitFrom 0 s sep.

(** Scan of [strings.ReplaceAll(s, old, new)] for a non-empty [old]. *)
Fixpoint replaceFrom (skip : nat) (s old new : string) : string :=
  match s with
  | EmptyString => ""
  | String c s' =>
      match skip with
      | S k => replaceFrom k s' old new
      | O =>
          if String.prefix old s
          then new +:+ replaceFrom (String.length old - 1) s' old new
          else String c (replaceFrom 0 s' old new)
      end
  end.

(** [strings.ReplaceAll(s, old, new)], [old] not empty (db.go passes the
    one-byte quote symbol). *)
Definition ReplaceAll (s old new : string) : string := replaceFrom 0 s old new.

(** [strings.Contains(s, substr)]. *)
Fixpoint Contains (s substr : string) : bool :=
  String.prefix substr s ||
  match s with
  | EmptyString => false
  | String _ s' => Contains s' substr
  end.

End Strings.

(** The tables [isPrint16], [isNotPrint16], [isPrint32], [isNotPrint32] of
    Go's [strconv] package decide which runes above U+00FF are printable.
    They are data of the Go distribution; the development is parametric in
    them. *)
Class PrintTables := isPrintWide : Z -> bool.

Module Utf8.

Definition RuneError : Z := 0xFFFD.
Definition RuneSelf : Z := 0x80.
Definition MaxRune : Z := 0x10FFFF.

Definition byteOf (c : ascii) : Z := Z.of_N (N_of_ascii c).
Definition charOf (b : Z) : ascii := ascii_of_N (Z.to_N (Z.land b 0xFF)).

(** The [first] table: information about the first byte of an encoding. *)
Definition first (b : Z) : Z :=
  if b <? 0x80 then 0xF0
  else if b <? 0xC2 then 0xF1
  else if b <? 0xE0 then 0x02
  else if b =? 0xE0 then 0x13
  else if b <? 0xED then 0x03
  else if b =? 0xED then 0x23
  else if b <? 0xF0 then 0x03
  else if b =? 0xF0 then 0x34
  else if b <? 0xF4 then 0x04
  else if b =? 0xF4 then 0x44
  else 0xF1.

(** [acceptRanges]: bounds of the second byte. *)
Definition acceptRanges (i : Z) : Z * Z :=
  if i =? 0 then (0x80, 0xBF)
  else if i =? 1 then (0xA0, 0xBF)
  else if i =? 2 then (0x80, 0x9F)
  else if i =? 3 then (0x90, 0xBF)
  else if i =? 4 then (0x80, 0x8F)
  else (0, 0).

Definition byteAt (s : string) (i : nat) : Z :=
  match String.get i s with
  | Some c => byteOf c
  | None => 0
  end.

(** [utf8.DecodeRuneInString]: the rune at the front of [s] and its width
    in bytes. *)
Definition DecodeRuneInString (s : string) : Z * nat :=
  let n := String.length s in
  if (n <? 1)%nat then (RuneError, 0%nat) else
  let s0 := byteAt s 0 in
  let x := first s0 in
  if 0xF0 <=? x then
    (if x =? 0xF0 then s0 else RuneError, 1%nat)
  else
    let sz := Z.to_nat (Z.land x 7) in
    let '(lo, hi) := acceptRanges (Z.shiftr x 4) in
    if (n <? sz)%nat then (RuneError, 1%nat) else
    let s1 := byteAt s 1 in
    if (s1 <? lo) || (hi <? s1) then (RuneError, 1%nat) else
    if (sz <=? 2)%nat then
      (Z.lor (Z.shiftl (Z.land s0 0x1F) 6) (Z.land s1 0x3F), 2%nat)
    else
    let s2 := byteAt s 2 in
    if (s2 <? 0x80) || (0xBF <? s2) then (RuneError, 1%nat) else
    if (sz <=? 3)%nat then
      (Z.lor (Z.lor (Z.shiftl (Z.land s0 0x0F) 12) (Z.shiftl (Z.land s1 0x3F) 6))
             (Z.land s2 0x3F), 3%nat)
    else
    let s3 := byteAt s 3 in
    if (s3 <? 0x80) || (0xBF <? s3) then (RuneError, 1%nat) else
    (Z.lor (Z.lor (Z.lor (Z.shiftl (Z.land s0 0x07) 18) (Z.shiftl (Z.land s1 0x3F) 12))
                  (Z.shiftl (Z.land s2 0x3F) 6))
           (Z.land s3 0x3F), 4%nat).

(** [utf8.ValidRune]. *)
Definition ValidRune (r : Z) : bool :=
  ((0 <=? r) && (r <? 0xD800)) || ((0xDFFF <? r) && (r <=? MaxRune)).

Definition contByte (r : Z) (shift : Z) : ascii :=
  charOf (Z.lor 0x80 (Z.land (Z.shiftr r shift) 0x3F)).

(** [utf8.AppendRune] on an empty buffer: the encoding of [r]. *)
Definition EncodeRune (r : Z) : string :=
  if (0 <=? r) && (r <=? 0x7F) then String (charOf r) ""
  else if (0 <=? r) && (r <=? 0x7FF) then
    String (charOf (Z.lor 0xC0 (Z.shiftr r 6))) (String (contByte r 0) "")
  else
    let r := if ValidRune r then r else RuneError in
    if r <=? 0xFFFF then
      String (charOf (Z.lor 0xE0 (Z.shiftr r 12)))
        (String (contByte r 6) (String (contByte r 0) ""))
    else
      String (charOf (Z.lor 0xF0 (Z.shiftr r 18)))
        (String (contByte r 12) (String (contByte r 6) (String (contByte r 0) ""))).

End Utf8.

Module Strconv.
Import Utf8.

(** [strconv.IsPrint]: the Latin-1 range is decided in the function
    itself, wider runes by the tables. *)
Definition IsPrint `{PrintTables} (r : Z) : bool :=
  if r <=? 0xFF then
    if (0x20 <=? r) && (r <=? 0x7E) then true
    else if (0xA1 <=? r) && (r <=? 0xFF) then negb (r =? 0xAD)
    else false
  else isPrintWide r.

(** [lowerhex[d]]. *)
Definition lowerhex (d : Z) : ascii :=
  let d := Z.land d 0xF in
  if d <? 10 then charOf (48 + d) else charOf (87 + d).

(** The digits [lowerhex[r>>s&0xF]] for [s] from [4*(n-1)] down to [0]. *)
Fixpoint hexDigits (n : nat) (r : Z) : string :=
  match n with
  | O => ""
  | S k => String (lowerhex (Z.shiftr r (4 * Z.of_nat k))) (hexDigits k r)
  end.

(** [appendEscapedRune] for the double-quote delimiter, neither ASCII-only
    nor graphic-only, as the text it appends. *)
Definition escapedRune `{PrintTables} (r : Z) : string :=
  if (r =? 34) || (r =? 92) then String "\" (String (charOf r) "")
  else if IsPrint r then EncodeRune r
  else if r =? 7 then "\a"
  else if r =? 8 then "\b"
  else if r =? 12 then "\f"
  else if r =? 10 then "\n"
  else if r =? 13 then "\r"
  else if r =? 9 then "\t"
  else if r =? 11 then "\v"
  else if (r <? 32) || (r =? 0x7F) then "\x" +:+ hexDigits 2 r
  else
    let r := if ValidRune r then r else RuneError in
    if r <? 0x10000 then "\u" +:+ hexDigits 4 r
    else "\U" +:+ hexDigits 8 r.

(** The loop of [appendQuotedWith]: [skip] counts the remaining bytes of
    the rune just handled. *)
Fixpoint quoteLoop `{PrintTables} (skip : nat) (s : string) : string :=
  match s with
  | EmptyString => ""
  | String c s' =>
      match skip with
      | S k => quoteLoop k s'
      | O =>
          let '(r, width) := DecodeRuneInString s in
          (if (width =? 1)%nat && (r =? RuneError)
           then "\x" +:+ hexDigits 2 (byteOf c)
           else escapedRune r) +:+ quoteLoop (width - 1) s'
      end
  end.

(** The one-byte string holding a double quote (byte 34). *)
Definition dquote : string := String (ascii_of_nat 34) "".

(** [strconv.Quote(s)], which is what the verb [%q] of [fmt.Sprintf] prints
    for a string. *)
Definition Quote `{PrintTables} (s : string) : string :=
  dquote +:+ quoteLoop 0 s +:+ dquote.

End Strconv.

(** [for i, x := range l { s = body i x s }], started at index [i]. *)
Fixpoint forRange {A St : Type} (body : nat -> A -> St -> St)
    (i : nat) (l : list A) (s : St) : St :=
  match l with
  | [] => s
  | x :: l' => forRange body (S i) l' (body i x s)
  end.

(** ** Data model *)

(** [reflect.Type], the key of the statement maps: a type is identified by
    its name. *)
Abbreviation reflectType := string (only parsing).

(** Modelled from the spec: the [Column] descriptor, declared outside db.go;
    these are the fields db.go reads. *)
Record Column := {
  DBField : string;
  AutoIncrement : bool;
  ReturningInsert : bool;
  ReturningUpdate : bool;
  RefuseUpdate : bool
}.

(** Modelled from the spec: the [Metadata] descriptor, declared outside
    db.go; these are the fields db.go reads ([Type_] is the field [Type]). *)
Record Metadata := {
  Type_ : reflectType;
  TableName : string;
  Columns : list Column;
  PrimaryKeys : list Column;
  hasReturningInsert : bool;
  hasReturningUpdate : bool
}.

(** Go [error] values that are not nil.  [sql.ErrNoRows] is a distinguished
    value; [fmt.Errorf] with the verb [%w] and an error operand yields an
    error that carries its text and wraps the operand; every other error is
    known by its text. *)
Inductive error :=
| ErrNoRows
| errorString (msg : string)
| wrapError (msg : string) (err : error).

(** [err.Error()]. *)
Definition Error (e : error) : string :=
  match e with
  | ErrNoRows => "sql: no rows in result set"
  | errorString msg => msg
  | wrapError msg _ => msg
  end.

(** [fmt.Errorf(text + "%w", err)] for a [text] that holds no verb of its
    own, as the four texts of db.go.  The verb prints the text of an error
    operand, and the result wraps it; for a nil operand the verb prints
    [%!w(<nil>)] and nothing is wrapped.  The result is never nil. *)
Definition Errorf_w (text : string) (err : option error) : error :=
  match err with
  | Some e => wrapError (text +:+ Error e) e
  | None => errorString (text +:+ "%!w(<nil>)")
  end.

(** Modelled from the spec: the entity type and the metadata lookup
    [getMetadata], both declared outside db.go. *)
Class Entities := {
  Entity : Type;
  getMetadata : Entity -> Metadata + error
}.

(** [sql.Result]: what its two methods return. *)
Record Result := {
  LastInsertId : Z * option error;
  RowsAffected : Z * option error
}.

(** [*sqlx.Rows] as db.go uses it: one call of [Next], one [StructScan] into
    the entity, then [Err]. *)
Record Rows `{Entities} := {
  Next : bool;
  StructScan : Entity -> Entity * option error;
  Err : option error
}.

(** The [DB] interface, as db.go uses a handle: [DriverName],
    [sqlx.NamedQueryContext] run on the handle, and [NamedExecContext].  The
    answer may depend on the statement and on the entity bound to it; the
    context argument is part of the answer. *)
Record DB `{Entities} := {
  DriverName : string;
  NamedQueryContext : string -> Entity -> Rows + error;
  NamedExecContext : string -> Entity -> Result + error
}.

(** A statement handed to the database handle. *)
Inductive DBCall :=
| QueryCall (stmt : string)
| ExecCall (stmt : string).

(** The package state: the four statement maps, and the calls made on
    database handles so far (latest first). *)
Record World := {
  selectStatements : gmap reflectType string;
  insertStatements : gmap reflectType string;
  updateStatements : gmap reflectType string;
  deleteStatements : gmap reflectType string;
  dbCalls : list DBCall
}.

Definition emptyWorld : World :=
  {| selectStatements := ∅; insertStatements := ∅;
     updateStatements := ∅; deleteStatements := ∅; dbCalls := [] |}.

(** State passing over [World]. *)
Definition M (A : Type) : Type := World -> A * World.

#[global] Instance M_ret : MRet M := fun _ a w => (a, w).
#[global] Instance M_bind : MBind M :=
  fun _ _ f m w => let '(a, w') := m w in f a w'.

Definition setSelect (t : reflectType) (stmt : string) : M unit :=
  fun w => (tt, {| selectStatements := <[t := stmt]> (selectStatements w);
                   insertStatements := insertStatements w;
                   updateStatements := updateStatements w;
                   deleteStatements := deleteStatements w;
                   dbCalls := dbCalls w |}).
Definition setInsert (t : reflectType) (stmt : string) : M unit :=
  fun w => (tt, {| selectStatements := selectStatements w;
                   insertStatements := <[t := stmt]> (insertStatements w);
                   updateStatements := updateStatements w;
                   deleteStatements := deleteStatements w;
                   dbCalls := dbCalls w |}).
Definition setUpdate (t : reflectType) (stmt : string) : M unit :=
  fun w => (tt, {| selectStatements := selectStatements w;
                   insertStatements := insertStatements w;
                   updateStatements := <[t := stmt]> (updateStatements w);
                   deleteStatements := deleteStatements w;
                   dbCalls := dbCalls w |}).
Definition setDelete (t : reflectType) (stmt : string) : M unit :=
  fun w => (tt, {| selectStatements := selectStatements w;
                   insertStatements := insertStatements w;
                   updateStatements := updateStatements w;
                   deleteStatements := <[t := stmt]> (deleteStatements w);
                   dbCalls := dbCalls w |}).
Definition getWorld : M World := fun w => (w, w).
Definition logCall (c : DBCall) : M unit :=
  fun w => (tt, {| selectStatements := selectStatements w;
                   insertStatements := insertStatements w;
                   updateStatements := updateStatements w;
                   deleteStatements := deleteStatements w;
                   dbCalls := c :: dbCalls w |}).

(** ** db.go *)

Definition driverMysql : string := "mysql".
Definition driverPostgres : string := "postgres".
Definition driverSqlite3 : string := "sqlite3".

Definition driverAlias : gmap string string := {[ "pgx" := driverPostgres ]}.

Section Db.
Context `{PrintTables} `{Entities}.

Definition dbDriver (db : DB) : string :=
  let dv := DriverName db in
  match driverAlias !! dv with
  | Some v => v
  | None => dv
  end.

Definition isConflictError (db : DB) (err : error) : bool :=
  let driver := dbDriver db in
  let s := Error err in
  if String.eqb driver driverPostgres then
    Strings.Contains s "duplicate key value violates unique constraint"
  else if String.eqb driver driverMysql then
    Strings.Contains s "Duplicate entry"
  else if String.eqb driver driverSqlite3 then
    Strings.Contains s "UNIQUE constraint failed"
  else false.

Definition quoteColumn (name : string) (driver : string) : string :=
  if String.eqb driver driverMysql then "`" +:+ name +:+ "`"
  else Strconv.Quote name.

Definition quoteIdentifier (name : string) (driver : string) : string :=
  let symbol := if String.eqb driver driverMysql then "`" else Strconv.dquote in
  let name := Strings.ReplaceAll name symbol "" in
  let result :=
    forRange (fun _ s result =>
                let s := if negb (String.eqb s "*")
                         then symbol +:+ s +:+ symbol else s in
                result ++ [s])
             0 (Strings.Split name ".") [] in
  Strings.Join result ".".

Definition selectStatement (ent : Entity) (md : Metadata) (driver : string) : string :=
  let columns :=
    forRange (fun _ col columns => columns ++ [quoteColumn (DBField col) driver])
             0 (Columns md) [] in
  let stmt := "SELECT " +:+ Strings.Join columns ", " +:+ " FROM "
              +:+ quoteIdentifier (TableName md) driver +:+ " WHERE" in
  let stmt :=
    forRange (fun i col stmt =>
                if (i =? 0)%nat
                then stmt +:+ " " +:+ quoteColumn (DBField col) driver
                          +:+ " = :" +:+ DBField col
                else stmt +:+ " AND " +:+ quoteColumn (DBField col) driver
                          +:+ " = :" +:+ DBField col)
             0 (PrimaryKeys md) stmt in
  stmt +:+ " LIMIT 1".

Definition insertStatement (ent : Entity) (md : Metadata) (driver : string) : string :=
  let '(columns, returnings, placeholder) :=
    forRange (fun _ col '(columns, returnings, placeholder) =>
                let c := quoteColumn (DBField col) driver in
                if ReturningInsert col then (columns, returnings ++ [c], placeholder)
                else if negb (AutoIncrement col)
                then (columns ++ [c], returnings, placeholder ++ [":" +:+ DBField col])
                else (columns, returnings, placeholder))
             0 (Columns md) ([], [], []) in
  let stmt := "INSERT INTO " +:+ quoteIdentifier (TableName md) driver
              +:+ " (" +:+ Strings.Join columns ", "
              +:+ ") VALUES (" +:+ Strings.Join placeholder ", " +:+ ")" in
  if (0 <? length returnings)%nat
  then stmt +:+ " RETURNING " +:+ Strings.Join returnings ", "
  else stmt.

Definition updateStatement (ent : Entity) (md : Metadata) (driver : string) : string :=
  let stmt := "UPDATE " +:+ quoteIdentifier (TableName md) driver +:+ " SET" in
  let '(returnings, stmt, set) :=
    forRange (fun _ col '(returnings, stmt, set) =>
                if ReturningUpdate col
                then (returnings ++ [quoteColumn (DBField col) driver], stmt, set)
                else if negb (RefuseUpdate col) then
                  if (set : bool)
                  then (returnings,
                        stmt +:+ ", " +:+ quoteColumn (DBField col) driver
                             +:+ " = :" +:+ DBField col, set)
                  else (returnings,
                        stmt +:+ " " +:+ quoteColumn (DBField col) driver
                             +:+ " = :" +:+ DBField col, true)
                else (returnings, stmt, set))
             0 (Columns md) ([], stmt, false) in
  let stmt :=
    forRange (fun i col stmt =>
                if (i =? 0)%nat
                then stmt +:+ " WHERE " +:+ quoteColumn (DBField col) driver
                          +:+ " = :" +:+ DBField col
                else stmt +:+ " AND " +:+ quoteColumn (DBField col) driver
                          +:+ " = :" +:+ DBField col)
             0 (PrimaryKeys md) stmt in
  if (0 <? length returnings)%nat
  then stmt +:+ " RETURNING " +:+ Strings.Join returnings ", "
  else stmt.

Definition deleteStatement (ent : Entity) (md : Metadata) (driver : string) : string :=
  let stmt := "DELETE FROM " +:+ quoteIdentifier (TableName md) driver +:+ " WHERE" in
  forRange (fun i col stmt =>
              if (i =? 0)%nat
              then stmt +:+ " " +:+ quoteColumn (DBField col) driver
                        +:+ " = :" +:+ DBField col
              else stmt +:+ " AND " +:+ quoteColumn (DBField col) driver
                        +:+ " = :" +:+ DBField col)
           0 (PrimaryKeys md) stmt.

Definition doLoad (ent : Entity) (db : DB) : M (Entity * option error) :=
  match getMetadata ent with
  | inr err => mret (ent, Some (Errorf_w "get metadata, " (Some err)))
  | inl md =>
      w ← getWorld;
      stmt ← match selectStatements w !! Type_ md with
             | Some stmt => mret stmt
             | None =>
                 let stmt := selectStatement ent md (dbDriver db) in
                 setSelect (Type_ md) stmt;; mret stmt
             end;
      logCall (QueryCall stmt);;
      match NamedQueryContext db stmt ent with
      | inr err => mret (ent, Some err)
      | inl rows =>
          if negb (Next rows) then mret (ent, Some ErrNoRows)
          else
            let '(ent', serr) := StructScan rows ent in
            match serr with
            | Some err => mret (ent', Some (Errorf_w "scan struct, " (Some err)))
            | None => mret (ent', Err rows)
            end
      end
  end.

Definition doInsert (ent : Entity) (db : DB) : M (Entity * (Z * option error)) :=
  match getMetadata ent with
  | inr err => mret (ent, (0, Some (Errorf_w "get metadata, " (Some err))))
  | inl md =>
      w ← getWorld;
      stmt ← match insertStatements w !! Type_ md with
             | Some stmt => mret stmt
             | None =>
                 let stmt := insertStatement ent md (dbDriver db) in
                 setInsert (Type_ md) stmt;; mret stmt
             end;
      if hasReturningInsert md then
        logCall (QueryCall stmt);;
        match NamedQueryContext db stmt ent with
        | inr err => mret (ent, (0, Some err))
        | inl rows =>
            if negb (Next rows) then mret (ent, (0, Some ErrNoRows))
            else
              let '(ent', serr) := StructScan rows ent in
              match serr with
              | Some err => mret (ent', (0, Some (Errorf_w "scan struct, " (Some err))))
              | None => mret (ent', (0, Err rows))
              end
        end
      else
        logCall (ExecCall stmt);;
        match NamedExecContext db stmt ent with
        | inr err => mret (ent, (0, Some err))
        | inl result =>
            if String.eqb (dbDriver db) driverPostgres then mret (ent, (0, None))
            else
              let '(lastID, err) := LastInsertId result in
              mret (ent, (lastID, Some (Errorf_w "get last insert id, " err)))
        end
  end.

Definition doUpdate (ent : Entity) (db : DB) : M (Entity * option error) :=
  match getMetadata ent with
  | inr err => mret (ent, Some (Errorf_w "get metadata, " (Some err)))
  | inl md =>
      w ← getWorld;
      stmt ← match updateStatements w !! Type_ md with
             | Some stmt => mret stmt
             | None =>
                 let stmt := updateStatement ent md (dbDriver db) in
                 setUpdate (Type_ md) stmt;; mret stmt
             end;
      if hasReturningUpdate md then
        logCall (QueryCall stmt);;
        match NamedQueryContext db stmt ent with
        | inr err => mret (ent, Some err)
        | inl rows =>
            if negb (Next rows) then mret (ent, Some ErrNoRows)
            else
              let '(ent', serr) := StructScan rows ent in
              match serr with
              | Some err => mret (ent', Some (Errorf_w "scan struct, " (Some err)))
              | None => mret (ent', Err rows)
              end
        end
      else
        logCall (ExecCall stmt);;
        match NamedExecContext db stmt ent with
        | inr err => mret (ent, Some err)
        | inl result =>
            let '(n, err) := RowsAffected result in
            match err with
            | Some e => mret (ent, Some (Errorf_w "get affected rows, " (Some e)))
            | None =>
                if n =? 0 then mret (ent, Some ErrNoRows)
                else mret (ent, None)
            end
        end
  end.

Definition doDelete (ent : Entity) (db : DB) : M (Entity * option error) :=
  match getMetadata ent with
  | inr err => mret (ent, Some (Errorf_w "get metadata, " (Some err)))
  | inl md =>
      w ← getWorld;
      stmt ← match deleteStatements w !! Type_ md with
             | Some stmt => mret stmt
             | None =>
                 let stmt := deleteStatement ent md (dbDriver db) in
                 setDelete (Type_ md) stmt;; mret stmt
             end;
      logCall (ExecCall stmt);;
      match NamedExecContext db stmt ent with
      | inr err => mret (ent, Some err)
      | inl _ => mret (ent, None)
      end
  end.

End Db.

(** ** Vocabulary of the properties *)

(** [t] occurs inside [s]. *)
Definition occursIn (t s : string) : Prop := exists l r, s = l +:+ t +:+ r.

(** [s] ends with [t], as a test: some tail of [s] is [t]. *)
Fixpoint endsWith (s t : string) : bool :=
  String.eqb s t ||
  match s with
  | EmptyString => false
  | String _ s' => endsWith s' t
  end.

(** The byte [c] occurs in [s]. *)
Fixpoint hasByte (c : ascii) (s : string) : bool :=
  match s with
  | EmptyString => false
  | String a s' => Ascii.eqb c a || hasByte c s'
  end.

(** A printable ASCII byte other than the double quote and the backslash. *)
Definition plainByte (a : ascii) : bool :=
  let b := Utf8.byteOf a in
  (0x20 <=? b) && (b <=? 0x7E) && negb (b =? 34) && negb (b =? 92).

(** Every byte of [s] is plain: the names that need no escape. *)
Fixpoint plainName (s : string) : bool :=
  match s with
  | EmptyString => true
  | String a s' => plainByte a && plainName s'
  end.

(** Each element of [l] with [sep] before it. *)
Fixpoint appendEach (sep : string) (l : list string) : string :=
  match l with
  | [] => ""
  | x :: l' => sep +:+ x +:+ appendEach sep l'
  end.

(** The statement a call uses: the cached text when there is one, the text
    just built otherwise. *)
Definition cachedOr (cache : gmap reflectType string) (t : reflectType)
    (built : string) : string :=
  default built (cache !! t).

Definition stmtOf (c : DBCall) : string :=
  match c with
  | QueryCall stmt => stmt
  | ExecCall stmt => stmt
  end.

(** The four operation kinds, each with its statement map. *)
Inductive Kind := Select | Insert | Update | Delete.

Definition cacheOf (k : Kind) (w : World) : gmap reflectType string :=
  match k with
  | Select => selectStatements w
  | Insert => insertStatements w
  | Update => updateStatements w
  | Delete => deleteStatements w
  end.

Section Vocabulary.
Context `{PrintTables} `{Entities}.

(** The quote byte of a dialect, and the symbol made of it. *)
Definition quoteByte (driver : string) : ascii :=
  if String.eqb driver driverMysql then "`"%char else ascii_of_nat 34.

Definition quoteSymbol (driver : string) : string :=
  String (quoteByte driver) "".

(** One segment of a qualified name, quoted. *)
Definition quoteSegment (symbol s : string) : string :=
  if String.eqb s "*" then s else symbol +:+ s +:+ symbol.

(** The equality predicate of one key column. *)
Definition keyPredicate (driver : string) (col : Column) : string :=
  quoteColumn (DBField col) driver +:+ " = :" +:+ DBField col.

(** The assignment of one column in a [SET] clause. *)
Definition assignment (driver : string) (col : Column) : string :=
  quoteColumn (DBField col) driver +:+ " = :" +:+ DBField col.

(** The equality predicates of the primary key, in [PrimaryKeys] order. *)
Definition keyPredicates (md : Metadata) (driver : string) : list string :=
  map (keyPredicate driver) (PrimaryKeys md).

(** The columns an insert gives a value to. *)
Definition insertedColumns (md : Metadata) : list Column :=
  List.filter (fun col => negb (ReturningInsert col) && negb (AutoIncrement col))
              (Columns md).

(** The columns an update assigns. *)
Definition assignedColumns (md : Metadata) : list Column :=
  List.filter (fun col => negb (ReturningUpdate col) && negb (RefuseUpdate col))
              (Columns md).

(** The assignments after [SET]: comma-joined, a blank before the first. *)
Definition setClause (md : Metadata) (driver : string) : string :=
  match assignedColumns md with
  | [] => ""
  | _ => " " +:+ Strings.Join (map (assignment driver) (assignedColumns md)) ", "
  end.

(** The [WHERE] clause of an update: the key predicates joined by [AND]. *)
Definition whereClause (md : Metadata) (driver : string) : string :=
  match PrimaryKeys md with
  | [] => ""
  | _ => " WHERE " +:+ Strings.Join (keyPredicates md driver) " AND "
  end.

(** A [RETURNING] clause for the columns selected by [flag], absent when
    there is none. *)
Definition returningClause (flag : Column -> bool) (md : Metadata)
    (driver : string) : string :=
  if existsb flag (Columns md)
  then " RETURNING " +:+
       Strings.Join (map (fun col => quoteColumn (DBField col) driver)
                         (List.filter flag (Columns md))) ", "
  else "".

(** The builder of each kind. *)
Definition build (k : Kind) : Entity -> Metadata -> string -> string :=
  match k with
  | Select => selectStatement
  | Insert => insertStatement
  | Update => updateStatement
  | Delete => deleteStatement
  end.

(** One call of the protocol, and what it leaves of the package state. *)
Inductive Op := Call (k : Kind) (ent : Entity) (db : DB).

Definition run (op : Op) (w : World) : World :=
  match op with
  | Call Select ent db => (doLoad ent db w).2
  | Call Insert ent db => (doInsert ent db w).2
  | Call Update ent db => (doUpdate ent db w).2
  | Call Delete ent db => (doDelete ent db w).2
  end.

Definition runAll (ops : list Op) (w : World) : World :=
  fold_left (fun w op => run op w) ops w.

(** The call gets past its metadata lookup. *)
Definition reaches (op : Op) : bool :=
  match op with
  | Call _ ent _ =>
      match getMetadata ent with
      | inl _ => true
      | inr _ => false
      end
  end.

(** [stmt] is what the builder of kind [k] makes for some entity of type
    [t] and the dialect of some handle. *)
Definition builtBy (k : Kind) (t : reflectType) (stmt : string) : Prop :=
  exists (ent : Entity) (db : DB) (md : Metadata),
    getMetadata ent = inl md /\ Type_ md = t /\
    stmt = build k ent md (dbDriver db).

End Vocabulary.

(** ** A concrete entity, used to instantiate the statements below *)

Module Fixture.

Record Account := { ID : Z; Email : string; CreatedAt : string }.

Definition column (name : string) (auto rins rupd refuse : bool) : Column :=
  {| DBField := name; AutoIncrement := auto; ReturningInsert := rins;
     ReturningUpdate := rupd; RefuseUpdate := refuse |}.

Definition idColumn : Column := column "id" true false false true.
Definition emailColumn : Column := column "email" false false false false.

(** [Account{ID (PK, auto-increment), Email, CreatedAt (RefuseUpdate)}]. *)
Definition accountMetadata : Metadata :=
  {| Type_ := "Account"; TableName := "account";
     Columns := [idColumn; emailColumn; column "created_at" false false false true];
     PrimaryKeys := [idColumn];
     hasReturningInsert := false; hasReturningUpdate := false |}.

(** The same table with [created_at] returned by inserts. *)
Definition stampedMetadata : Metadata :=
  {| Type_ := "Stamped"; TableName := "account";
     Columns := [idColumn; emailColumn; column "created_at" false true false true];
     PrimaryKeys := [idColumn];
     hasReturningInsert := true; hasReturningUpdate := false |}.

(** The same table with [updated_at] returned by updates. *)
Definition auditedMetadata : Metadata :=
  {| Type_ := "Audited"; TableName := "account";
     Columns := [idColumn; emailColumn; column "updated_at" false false true false];
     PrimaryKeys := [idColumn];
     hasReturningInsert := false; hasReturningUpdate := true |}.

(** A table whose columns are all kept out of [SET]. *)
Definition frozenMetadata : Metadata :=
  {| Type_ := "Frozen"; TableName := "frozen";
     Columns := [idColumn; column "seen_at" false false true false];
     PrimaryKeys := [idColumn];
     hasReturningInsert := false; hasReturningUpdate := true |}.

Definition accounts : Entities :=
  {| Entity := Account; getMetadata := fun _ => inl accountMetadata |}.

(** Tables that hold no printable rune above U+00FF. *)
Definition narrowTables : PrintTables := fun _ => false.

Definition alice : Account := {| ID := 0; Email := "a@x.com"; CreatedAt := "" |}.

(** A handle that executes every command, reports id 7 and no affected
    row, and answers every query with no row. *)
Definition idleHandle (driver : string) : @DB accounts :=
  {| DriverName := driver;
     NamedQueryContext := fun _ _ =>
       inl {| Next := false; StructScan := fun e => (e, None); Err := None |};
     NamedExecContext := fun _ _ =>
       inl {| LastInsertId := (7, None); RowsAffected := (0, None) |} |}.

(** [s] between double quotes. *)
Definition dq (s : string) : string := Strconv.dquote +:+ s +:+ Strconv.dquote.

(** The one-byte string holding a backslash (byte 92). *)
Definition backslash : string := String (ascii_of_nat 92) "".

(** The name with a double quote in it: [a], byte 34, [b]. *)
Definition quotedName : string := "a" +:+ Strconv.dquote +:+ "b".

(** Accounts whose metadata lookup gives [lookup]. *)
Definition accountsWith (lookup : Metadata + error) : Entities :=
  {| Entity := Account; getMetadata := fun _ => lookup |}.

(** Accounts without metadata, and accounts stamped by the database. *)
Definition strangers : Entities := accountsWith (inr (errorString "no primary key")).
Definition stamped : Entities := accountsWith (inl stampedMetadata).

(** A handle that executes every command, reports id 7 and one affected
    row, and answers every query with one row that scans as [row], with the
    scan error [scanErr] and the rows error [rowsErr]. *)
Definition rowHandle (E : Entities) (driver : string) (row : @Entity E)
    (scanErr rowsErr : option error) : @DB E :=
  {| DriverName := driver;
     NamedQueryContext := fun _ _ =>
       inl {| Next := true; StructScan := fun _ => (row, scanErr); Err := rowsErr |};
     NamedExecContext := fun _ _ =>
       inl {| LastInsertId := (7, None); RowsAffected := (1, None) |} |}.

(** A handle whose every call fails with [err]. *)
Definition failingHandle (E : Entities) (driver : string) (err : error) : @DB E :=
  {| DriverName := driver;
     NamedQueryContext := fun _ _ => inr err;
     NamedExecContext := fun _ _ => inr err |}.

Definition bob : Account := {| ID := 7; Email := "b@x.com"; CreatedAt := "now" |}.

(** A table with no primary key. *)
Definition keylessMetadata : Metadata :=
  {| Type_ := "Log"; TableName := "log";
     Columns := [emailColumn]; PrimaryKeys := [];
     hasReturningInsert := false; hasReturningUpdate := false |}.

(** A table whose columns are all filled by the database. *)
Definition generatedMetadata : Metadata :=
  {| Type_ := "Ticket"; TableName := "ticket";
     Columns := [idColumn; column "issued_at" false true false true];
     PrimaryKeys := [idColumn];
     hasReturningInsert := true; hasReturningUpdate := false |}.

(** The duplicate-key error of MySQL. *)
Definition duplicateEntry : error :=
  errorString "Error 1062: Duplicate entry 'a@x.com' for key 'email'".

End Fixture.

(** ** Facts about the library functions *)

Section StringFacts.

#[local] Arguments String.append : simpl nomatch.

Lemma append_assoc (a b c : string) : (a +:+ b) +:+ c = a +:+ b +:+ c.
Proof. induction a as [|x a IH]; simpl; [reflexivity | now rewrite IH]. Qed.

Lemma append_nil_r (a : string) : a +:+ "" = a.
Proof. induction a as [|x a IH]; simpl; [reflexivity | now rewrite IH]. Qed.

Lemma append_cons (x : ascii) (a b : string) :
  String x a +:+ b = String x (a +:+ b).
Proof. reflexivity. Qed.

Lemma prefix_nil (s : string) : String.prefix "" s = true.
Proof. destruct s; reflexivity. Qed.

Lemma prefix_cons (x y : ascii) (p s : string) :
  String.prefix (String x p) (String y s) = Ascii.eqb x y && String.prefix p s.
Proof.
  simpl. destruct (ascii_dec x y) as [->|Hne].
  - now rewrite Ascii.eqb_refl.
  - apply Ascii.eqb_neq in Hne. now rewrite Hne.
Qed.

Lemma prefix_spec (p s : string) :
  String.prefix p s = true <-> exists r, s = p +:+ r.
Proof.
  revert s. induction p as [|x p IH]; intros s.
  - rewrite prefix_nil. split; [intros _; now exists s | reflexivity].
  - destruct s as [|y s].
    + split; [discriminate | intros [r Hr]; discriminate].
    + rewrite prefix_cons, andb_true_iff, Ascii.eqb_eq, IH. split.
      * intros [-> [r ->]]. now exists r.
      * intros [r Hr]. simpl in Hr. injection Hr as -> ->. eauto.
Qed.

Lemma Contains_occursIn (s t : string) :
  Strings.Contains s t = true <-> occursIn t s.
Proof.
  unfold occursIn. induction s as [|x s IH].
  - change (Strings.Contains "" t) with (String.prefix t "" || false).
    rewrite orb_false_r, prefix_spec. split.
    + intros [r Hr]. now exists "", r.
    + intros [l [r Hr]]. destruct l; [now exists r | discriminate].
  - change (Strings.Contains (String x s) t)
      with (String.prefix t (String x s) || Strings.Contains s t).
    rewrite orb_true_iff, prefix_spec, IH. split.
    + intros [[r Hr] | [l [r Hr]]].
      * now exists "", r.
      * exists (String x l), r. now rewrite Hr.
    + intros [[|y l] [r Hr]].
      * left. now exists r.
      * right. simpl in Hr. injection Hr as -> ->. eauto.
Qed.

End StringFacts.

(** Splitting, replacing and joining with a one-byte separator. *)
Section OneByte.
Variable c : ascii.

#[local] Arguments String.append : simpl nomatch.

Abbreviation sep := (String c "").
Abbreviation strip s := (Strings.ReplaceAll s sep "").

Lemma replaceFrom_one (a : ascii) (s new : string) :
  Strings.replaceFrom 0 (String a s) sep new =
  if Ascii.eqb c a then new +:+ Strings.replaceFrom 0 s sep new
  else String a (Strings.replaceFrom 0 s sep new).
Proof.
  change (Strings.replaceFrom 0 (String a s) sep new)
    with (if String.prefix sep (String a s)
          then new +:+ Strings.replaceFrom 0 s sep new
          else String a (Strings.replaceFrom 0 s sep new)).
  now rewrite prefix_cons, prefix_nil, andb_true_r.
Qed.

Lemma ReplaceAll_cons (a : ascii) (s : string) :
  strip (String a s) = if Ascii.eqb c a then strip s else String a (strip s).
Proof. unfold Strings.ReplaceAll. now rewrite replaceFrom_one. Qed.

Lemma ReplaceAll_app (s1 s2 : string) :
  strip (s1 +:+ s2) = strip s1 +:+ strip s2.
Proof.
  induction s1 as [|a s1 IH]; [reflexivity|].
  rewrite append_cons, !ReplaceAll_cons, IH.
  now destruct (Ascii.eqb c a).
Qed.

Lemma ReplaceAll_clean (s : string) : hasByte c s = false -> strip s = s.
Proof.
  induction s as [|a s IH]; [reflexivity|].
  simpl hasByte. rewrite orb_false_iff. intros [Ha Hs].
  now rewrite ReplaceAll_cons, Ha, IH.
Qed.

Lemma hasByte_ReplaceAll (s : string) : hasByte c (strip s) = false.
Proof.
  induction s as [|a s IH]; [reflexivity|].
  rewrite ReplaceAll_cons. destruct (Ascii.eqb c a) eqn:Ha; [exact IH|].
  simpl. now rewrite Ha, IH.
Qed.

Lemma ReplaceAll_idempotent (s : string) : strip (strip s) = strip s.
Proof. apply ReplaceAll_clean, hasByte_ReplaceAll. Qed.

Lemma hasByte_app (s1 s2 : string) :
  hasByte c (s1 +:+ s2) = hasByte c s1 || hasByte c s2.
Proof.
  induction s1 as [|a s1 IH]; [reflexivity|].
  rewrite append_cons. simpl. now rewrite IH, orb_assoc.
Qed.

Lemma Split_cons (a : ascii) (s : string) :
  Strings.Split (String a s) sep =
  if Ascii.eqb c a then "" :: Strings.Split s sep
  else match Strings.Split s sep with
       | seg :: rest => String a seg :: rest
       | [] => [String a ""]
       end.
Proof.
  unfold Strings.Split.
  change (Strings.splitFrom 0 (String a s) sep)
    with (if String.prefix sep (String a s)
          then "" :: Strings.splitFrom 0 s sep
          else match Strings.splitFrom 0 s sep with
               | seg :: rest => String a seg :: rest
               | [] => [String a ""]
               end).
  now rewrite prefix_cons, prefix_nil, andb_true_r.
Qed.

Lemma Split_nonempty (s : string) : Strings.Split s sep <> [].
Proof.
  induction s as [|a s IH]; [discriminate|].
  rewrite Split_cons. destruct (Ascii.eqb c a); [discriminate|].
  destruct (Strings.Split s sep); discriminate.
Qed.

Lemma Join_cons (x : string) (rest : list string) (d : string) :
  rest <> [] -> Strings.Join (x :: rest) d = x +:+ d +:+ Strings.Join rest d.
Proof. destruct rest; [congruence | reflexivity]. Qed.

(** Joining the segments of a split gives the string back. *)
Lemma Join_Split (s : string) : Strings.Join (Strings.Split s sep) sep = s.
Proof.
  induction s as [|a s IH]; [reflexivity|].
  rewrite Split_cons. destruct (Ascii.eqb c a) eqn:Ha.
  - apply Ascii.eqb_eq in Ha as <-.
    rewrite Join_cons by apply Split_nonempty. now rewrite IH.
  - pose proof (Split_nonempty s) as Hne.
    destruct (Strings.Split s sep) as [|seg [|seg' rest]]; [congruence| |].
    + simpl in IH |- *. now rewrite IH.
    + rewrite Join_cons in IH |- * by discriminate.
      rewrite append_cons. now rewrite IH.
Qed.

Lemma Split_clean (seg : string) :
  hasByte c seg = false -> Strings.Split seg sep = [seg].
Proof.
  induction seg as [|a seg IH]; [reflexivity|].
  simpl hasByte. rewrite orb_false_iff. intros [Ha Hs].
  now rewrite Split_cons, Ha, IH.
Qed.

Lemma Split_app_clean (seg rest : string) :
  hasByte c seg = false ->
  Strings.Split (seg +:+ String c rest) sep = seg :: Strings.Split rest sep.
Proof.
  induction seg as [|a seg IH].
  - intros _. change ("" +:+ String c rest) with (String c rest).
    now rewrite Split_cons, Ascii.eqb_refl.
  - simpl hasByte. rewrite orb_false_iff. intros [Ha Hs].
    now rewrite append_cons, Split_cons, Ha, IH.
Qed.

(** Splitting the join of separator-free segments gives them back. *)
Lemma Split_Join (segs : list string) :
  segs <> [] -> Forall (fun seg => hasByte c seg = false) segs ->
  Strings.Split (Strings.Join segs sep) sep = segs.
Proof.
  induction segs as [|seg segs IH]; [congruence|].
  intros _ Hall. inversion Hall as [|? ? Hseg Hrest]; subst.
  destruct segs as [|seg' segs].
  - now apply Split_clean.
  - rewrite Join_cons by discriminate.
    change (sep +:+ Strings.Join (seg' :: segs) sep)
      with (String c (Strings.Join (seg' :: segs) sep)).
    rewrite Split_app_clean by assumption.
    f_equal. now apply IH.
Qed.

(** Stripping [c] from a join on another byte strips each element. *)
Lemma ReplaceAll_Join (d : ascii) (l : list string) :
  Ascii.eqb c d = false ->
  strip (Strings.Join l (String d "")) =
  Strings.Join (map (fun s => strip s) l) (String d "").
Proof.
  intros Hd. induction l as [|x l IH]; [reflexivity|].
  destruct l as [|y l]; [reflexivity|].
  rewrite Join_cons by discriminate.
  change (map (fun s => strip s) (x :: y :: l))
    with (strip x :: strip y :: map (fun s => strip s) l).
  rewrite (Join_cons (strip x)) by discriminate.
  rewrite !ReplaceAll_app, IH.
  now rewrite (ReplaceAll_cons d ""), Hd.
Qed.

End OneByte.

(** ** The loops of the builders *)

Lemma forRange_collect {A B : Type} (f : A -> B) (i : nat) (l : list A) (acc : list B) :
  forRange (fun _ x acc => acc ++ [f x]) i l acc = acc ++ map f l.
Proof.
  revert i acc. induction l as [|x l IH]; intros i acc; simpl.
  - now rewrite app_nil_r.
  - rewrite IH. now rewrite <- app_assoc.
Qed.

(** ** Quoting *)

Section Quoting.
Context `{PrintTables}.

#[local] Arguments String.append : simpl nomatch.

Lemma quoteByte_not_dot (driver : string) :
  Ascii.eqb (quoteByte driver) "."%char = false.
Proof. unfold quoteByte. now destruct (String.eqb driver driverMysql). Qed.

Lemma quoteIdentifier_unfold (name driver : string) :
  quoteIdentifier name driver =
  Strings.Join (map (quoteSegment (quoteSymbol driver))
                    (Strings.Split (Strings.ReplaceAll name (quoteSymbol driver) "") "."))
               ".".
Proof.
  unfold quoteIdentifier, quoteSymbol, quoteByte.
  destruct (String.eqb driver driverMysql);
    rewrite (forRange_collect
               (fun s => if negb (String.eqb s "*")
                         then _ +:+ s +:+ _ else s));
    simpl app; f_equal; apply map_ext; intros s; unfold quoteSegment;
    destruct (String.eqb s "*"); reflexivity.
Qed.

Lemma strip_quoteSegment (q : ascii) (s : string) :
  Ascii.eqb q "*"%char = false ->
  Strings.ReplaceAll (quoteSegment (String q "") s) (String q "") "" =
  Strings.ReplaceAll s (String q "") "".
Proof.
  intros Hq. unfold quoteSegment. destruct (String.eqb s "*"); [reflexivity|].
  rewrite !ReplaceAll_app, (ReplaceAll_cons q q ""), Ascii.eqb_refl.
  change (Strings.ReplaceAll "" (String q "") "") with "".
  now rewrite append_nil_r.
Qed.

Lemma quoteByte_not_star (driver : string) :
  Ascii.eqb (quoteByte driver) "*"%char = false.
Proof. unfold quoteByte. now destruct (String.eqb driver driverMysql). Qed.

(** Stripping the quote symbol from a quoted name gives the stripped
    name. *)
Lemma strip_quoteIdentifier (name driver : string) :
  Strings.ReplaceAll (quoteIdentifier name driver) (quoteSymbol driver) "" =
  Strings.ReplaceAll name (quoteSymbol driver) "".
Proof.
  rewrite quoteIdentifier_unfold. unfold quoteSymbol.
  rewrite ReplaceAll_Join by apply quoteByte_not_dot.
  rewrite map_map.
  rewrite (map_ext _ (fun s => Strings.ReplaceAll s (String (quoteByte driver) "") ""))
    by (intros s; apply strip_quoteSegment, quoteByte_not_star).
  rewrite <- ReplaceAll_Join by apply quoteByte_not_dot.
  now rewrite Join_Split, ReplaceAll_idempotent.
Qed.

Lemma quoteLoop_step (a : ascii) (s : string) :
  Strconv.quoteLoop 0 (String a s) =
  (let '(r, width) := Utf8.DecodeRuneInString (String a s) in
   (if (width =? 1)%nat && (r =? Utf8.RuneError)
    then "\x" +:+ Strconv.hexDigits 2 (Utf8.byteOf a)
    else Strconv.escapedRune r) +:+ Strconv.quoteLoop (width - 1) s).
Proof. reflexivity. Qed.

Lemma DecodeRuneInString_plainByte (a : ascii) (s : string) :
  plainByte a = true ->
  Utf8.DecodeRuneInString (String a s) = (Utf8.byteOf a, 1%nat).
Proof.
  destruct a as [[] [] [] [] [] [] [] []]; intros Hp;
    try (vm_compute in Hp; discriminate Hp); reflexivity.
Qed.

Lemma escapedRune_plainByte (a : ascii) :
  plainByte a = true ->
  (if (1 =? 1)%nat && (Utf8.byteOf a =? Utf8.RuneError)
   then "\x" +:+ Strconv.hexDigits 2 (Utf8.byteOf a)
   else Strconv.escapedRune (Utf8.byteOf a)) = String a "".
Proof.
  destruct a as [[] [] [] [] [] [] [] []]; intros Hp;
    try (vm_compute in Hp; discriminate Hp); vm_compute; reflexivity.
Qed.

Lemma quoteLoop_plainByte (a : ascii) (s : string) :
  plainByte a = true ->
  Strconv.quoteLoop 0 (String a s) = String a (Strconv.quoteLoop 0 s).
Proof.
  intros Hp. rewrite quoteLoop_step, DecodeRuneInString_plainByte by assumption.
  cbv beta iota. now rewrite escapedRune_plainByte.
Qed.

Lemma quoteLoop_plainName (s : string) :
  plainName s = true -> Strconv.quoteLoop 0 s = s.
Proof.
  induction s as [|a s IH]; [reflexivity|].
  simpl plainName. rewrite andb_true_iff. intros [Ha Hs].
  now rewrite quoteLoop_plainByte, IH.
Qed.

End Quoting.

(** ** The statement builders *)

Section Builders.
Context `{PrintTables} `{Entities}.

#[local] Arguments String.append : simpl nomatch.

Lemma Join_appendEach (x : string) (l : list string) (sep : string) :
  Strings.Join (x :: l) sep = x +:+ appendEach sep l.
Proof.
  revert x. induction l as [|y l IH]; intros x.
  - simpl. now rewrite append_nil_r.
  - rewrite Join_cons by discriminate. simpl appendEach. now rewrite IH.
Qed.

(** The key loop past its first round appends [sep] and the predicate of
    each remaining column. *)
Lemma forRange_keys_tail (P : Column -> string) (hd sep : string)
    (i : nat) (l : list Column) (stmt : string) :
  forRange (fun i col stmt =>
              if (i =? 0)%nat then stmt +:+ hd +:+ P col
              else stmt +:+ sep +:+ P col) (S i) l stmt =
  stmt +:+ appendEach sep (map P l).
Proof.
  revert i stmt. induction l as [|col l IH]; intros i stmt.
  - simpl. now rewrite append_nil_r.
  - simpl forRange. rewrite IH. simpl. now rewrite !append_assoc.
Qed.

Lemma forRange_keys (P : Column -> string) (hd sep : string)
    (l : list Column) (stmt : string) :
  forRange (fun i col stmt =>
              if (i =? 0)%nat then stmt +:+ hd +:+ P col
              else stmt +:+ sep +:+ P col) 0 l stmt =
  stmt +:+ match l with
           | [] => ""
           | _ => hd +:+ Strings.Join (map P l) sep
           end.
Proof.
  destruct l as [|col l].
  - simpl. now rewrite append_nil_r.
  - simpl forRange. rewrite forRange_keys_tail.
    simpl map. rewrite Join_appendEach. now rewrite !append_assoc.
Qed.

Lemma length_returnings {B : Type} (f : Column -> B) (flag : Column -> bool)
    (l : list Column) :
  (0 <? length (map f (List.filter flag l)))%nat = existsb flag l.
Proof.
  induction l as [|col l IH]; [reflexivity|].
  simpl. destruct (flag col); [reflexivity | exact IH].
Qed.

(** [selectStatement] for any metadata. *)
Lemma selectStatement_unfold (ent : Entity) (md : Metadata) (driver : string) :
  selectStatement ent md driver =
  "SELECT " +:+
  Strings.Join (map (fun col => quoteColumn (DBField col) driver) (Columns md)) ", "
  +:+ " FROM " +:+ quoteIdentifier (TableName md) driver +:+ " WHERE" +:+
  match PrimaryKeys md with
  | [] => ""
  | _ => " " +:+ Strings.Join (keyPredicates md driver) " AND "
  end +:+ " LIMIT 1".
Proof.
  unfold selectStatement, keyPredicates, keyPredicate.
  rewrite (forRange_collect (fun col => quoteColumn (DBField col) driver)).
  rewrite (forRange_keys (fun col => quoteColumn (DBField col) driver +:+ " = :" +:+ DBField col) " " " AND ").
  simpl app. now rewrite !append_assoc.
Qed.

Lemma deleteStatement_unfold (ent : Entity) (md : Metadata) (driver : string) :
  deleteStatement ent md driver =
  "DELETE FROM " +:+ quoteIdentifier (TableName md) driver +:+ " WHERE" +:+
  match PrimaryKeys md with
  | [] => ""
  | _ => " " +:+ Strings.Join (keyPredicates md driver) " AND "
  end.
Proof.
  unfold deleteStatement, keyPredicates, keyPredicate.
  rewrite (forRange_keys (fun col => quoteColumn (DBField col) driver +:+ " = :" +:+ DBField col) " " " AND ").
  now rewrite !append_assoc.
Qed.

(** The loop of [insertStatement]: three lists grow side by side. *)
Lemma insert_loop (driver : string) (i : nat) (l : list Column)
    (cs rs ps : list string) :
  forRange (fun _ col '(columns, returnings, placeholder) =>
              let c := quoteColumn (DBField col) driver in
              if ReturningInsert col then (columns, returnings ++ [c], placeholder)
              else if negb (AutoIncrement col)
              then (columns ++ [c], returnings, placeholder ++ [":" +:+ DBField col])
              else (columns, returnings, placeholder))
           i l (cs, rs, ps) =
  let ins := List.filter (fun col => negb (ReturningInsert col) && negb (AutoIncrement col)) l in
  (cs ++ map (fun col => quoteColumn (DBField col) driver) ins,
   rs ++ map (fun col => quoteColumn (DBField col) driver) (List.filter ReturningInsert l),
   ps ++ map (fun col => ":" +:+ DBField col) ins).
Proof.
  revert i cs rs ps. induction l as [|col l IH]; intros i cs rs ps.
  - simpl. now rewrite !app_nil_r.
  - simpl forRange. simpl List.filter.
    destruct (ReturningInsert col), (AutoIncrement col); simpl;
      rewrite IH; simpl; now rewrite <- ?app_assoc.
Qed.

Lemma insertStatement_unfold (ent : Entity) (md : Metadata) (driver : string) :
  insertStatement ent md driver =
  "INSERT INTO " +:+ quoteIdentifier (TableName md) driver +:+ " (" +:+
  Strings.Join (map (fun col => quoteColumn (DBField col) driver) (insertedColumns md)) ", "
  +:+ ") VALUES (" +:+
  Strings.Join (map (fun col => ":" +:+ DBField col) (insertedColumns md)) ", "
  +:+ ")" +:+ returningClause ReturningInsert md driver.
Proof.
  unfold insertStatement, returningClause, insertedColumns.
  rewrite insert_loop. simpl app. cbv beta iota zeta.
  rewrite length_returnings.
  destruct (existsb ReturningInsert (Columns md)).
  - now rewrite ?append_assoc.
  - now rewrite ?append_assoc, ?append_nil_r.
Qed.

(** The loop of [updateStatement]: [set] tells whether an assignment was
    already written. *)
Lemma update_loop (driver : string) (i : nat) (l : list Column)
    (rs : list string) (stmt : string) (set : bool) :
  forRange (fun _ col '(returnings, stmt, set) =>
              if ReturningUpdate col
              then (returnings ++ [quoteColumn (DBField col) driver], stmt, set)
              else if negb (RefuseUpdate col) then
                if (set : bool)
                then (returnings,
                      stmt +:+ ", " +:+ quoteColumn (DBField col) driver
                           +:+ " = :" +:+ DBField col, set)
                else (returnings,
                      stmt +:+ " " +:+ quoteColumn (DBField col) driver
                           +:+ " = :" +:+ DBField col, true)
              else (returnings, stmt, set))
           i l (rs, stmt, set) =
  let items :=
    map (assignment driver)
        (List.filter (fun col => negb (ReturningUpdate col) && negb (RefuseUpdate col)) l) in
  (rs ++ map (fun col => quoteColumn (DBField col) driver) (List.filter ReturningUpdate l),
   stmt +:+ (if set then appendEach ", " items
             else match items with
                  | [] => ""
                  | x :: rest => " " +:+ x +:+ appendEach ", " rest
                  end),
   set || (0 <? length items)%nat).
Proof.
  revert i rs stmt set. induction l as [|col l IH]; intros i rs stmt set.
  - simpl. rewrite app_nil_r, orb_false_r. now destruct set; rewrite append_nil_r.
  - simpl forRange. simpl List.filter.
    destruct (ReturningUpdate col), (RefuseUpdate col), set; simpl;
      rewrite IH; simpl; rewrite <- ?app_assoc, ?append_assoc, ?orb_true_r;
      reflexivity.
Qed.

Lemma updateStatement_unfold (ent : Entity) (md : Metadata) (driver : string) :
  updateStatement ent md driver =
  "UPDATE " +:+ quoteIdentifier (TableName md) driver +:+ " SET" +:+
  setClause md driver +:+ whereClause md driver +:+
  returningClause ReturningUpdate md driver.
Proof.
  unfold updateStatement, returningClause, setClause, whereClause, assignedColumns.
  rewrite update_loop. cbv beta iota zeta.
  rewrite (forRange_keys (fun col => quoteColumn (DBField col) driver +:+ " = :" +:+ DBField col) " WHERE " " AND ").
  simpl app. cbv beta iota zeta. rewrite length_returnings.
  set (ass := List.filter _ (Columns md)).
  assert (Hset : match map (assignment driver) ass with
                 | [] => ""
                 | x :: rest => " " +:+ x +:+ appendEach ", " rest
                 end =
                 match ass with
                 | [] => ""
                 | _ => " " +:+ Strings.Join (map (assignment driver) ass) ", "
                 end).
  { destruct ass as [|col ass]; [reflexivity|].
    simpl map. now rewrite Join_appendEach. }
  rewrite Hset. unfold keyPredicates, keyPredicate.
  destruct (existsb ReturningUpdate (Columns md)).
  - now rewrite ?append_assoc.
  - now rewrite ?append_assoc, ?append_nil_r.
Qed.

End Builders.

(** ** The protocol *)

Section Protocol.
Context `{PrintTables} `{Entities}.

Lemma endsWith_spec (s t : string) :
  endsWith s t = true <-> exists p, s = p +:+ t.
Proof.
  induction s as [|a s IH].
  - change (endsWith "" t) with (String.eqb "" t || false).
    rewrite orb_false_r, String.eqb_eq. split.
    + intros <-. now exists "".
    + intros [[|b p] Hp]; [exact Hp | discriminate].
  - change (endsWith (String a s) t)
      with (String.eqb (String a s) t || endsWith s t).
    rewrite orb_true_iff, String.eqb_eq, IH. split.
    + intros [<- | [p ->]]; [now exists "" | now exists (String a p)].
    + intros [[|b p] Hp]; [now left | right].
      injection Hp as -> ->. now exists p.
Qed.

Lemma dbDriver_alias (db : DB) :
  dbDriver db = if String.eqb (DriverName db) "pgx" then driverPostgres
                else DriverName db.
Proof.
  unfold dbDriver, driverAlias.
  destruct (String.eqb_spec (DriverName db) "pgx") as [->|Hne].
  - now rewrite lookup_singleton_eq.
  - rewrite lookup_singleton_ne; [reflexivity | congruence].
Qed.

Lemma cachedOr_insert (cache : gmap string string) (t : string) (built : string) :
  match cache !! t with
  | Some _ => cache
  | None => <[t := built]> cache
  end = <[t := cachedOr cache t built]> cache.
Proof.
  unfold cachedOr. destruct (cache !! t) as [s|] eqn:Hs; simpl.
  - symmetry. now apply insert_id.
  - reflexivity.
Qed.

(** What a call whose metadata lookup succeeds leaves behind: its
    statement is in the map of its kind, the other maps are as before, and
    one call on the handle was made, with that statement. *)
Lemma run_world (k : Kind) (ent : Entity) (db : DB) (md : Metadata) (w : World) :
  getMetadata ent = inl md ->
  let stmt := cachedOr (cacheOf k w) (Type_ md) (build k ent md (dbDriver db)) in
  cacheOf k (run (Call k ent db) w) = <[Type_ md := stmt]> (cacheOf k w) /\
  (forall k', k' <> k -> cacheOf k' (run (Call k ent db) w) = cacheOf k' w) /\
  exists c, dbCalls (run (Call k ent db) w) = c :: dbCalls w /\ stmtOf c = stmt.
Proof.
  intros Hmd stmt. subst stmt. rewrite <- cachedOr_insert. unfold cachedOr.
  destruct k; simpl run; simpl cacheOf; simpl build;
    unfold doLoad, doInsert, doUpdate, doDelete; rewrite Hmd;
    unfold mbind, M_bind, mret, M_ret, getWorld,
      setSelect, setInsert, setUpdate, setDelete, logCall;
    simpl;
    repeat match goal with
           | |- context [match ?x with _ => _ end] =>
               lazymatch x with
               | context [match _ with _ => _ end] => fail
               | _ => destruct x; simpl
               end
           end;
    (split; [reflexivity|]);
    (split; [intros [] Hne; (reflexivity || congruence)|]);
    eexists; split; reflexivity.
Qed.

(** A call whose metadata lookup fails leaves the package state as it
    was. *)
Lemma run_metadata_error (k : Kind) (ent : Entity) (db : DB) (err : error) (w : World) :
  getMetadata ent = inr err -> run (Call k ent db) w = w.
Proof.
  intros Hmd. destruct k; simpl;
    unfold doLoad, doInsert, doUpdate, doDelete; now rewrite Hmd.
Qed.

(** No call removes or rewrites an entry of a statement map. *)
Lemma run_keeps_entry (op : Op) (k : Kind) (t stmt : string) (w : World) :
  cacheOf k w !! t = Some stmt -> cacheOf k (run op w) !! t = Some stmt.
Proof.
  intros Hin. destruct op as [k0 ent db].
  destruct (getMetadata ent) as [md|err] eqn:Hmd.
  - destruct (run_world k0 ent db md w Hmd) as (Hsame & Hother & _).
    assert (Hdec : k = k0 \/ k <> k0) by (destruct k, k0; auto; right; discriminate).
    destruct Hdec as [->|Hne].
    + rewrite Hsame. unfold cachedOr.
      destruct (decide (Type_ md = t)) as [->|Hnt].
      * rewrite Hin. simpl. now rewrite lookup_insert_eq.
      * now rewrite lookup_insert_ne.
    + now rewrite Hother.
  - now rewrite (run_metadata_error _ _ _ err).
Qed.

Lemma runAll_keeps_entry (ops : list Op) (k : Kind) (t stmt : string) (w : World) :
  cacheOf k w !! t = Some stmt -> cacheOf k (runAll ops w) !! t = Some stmt.
Proof.
  revert w. induction ops as [|op ops IH]; intros w Hin; [exact Hin|].
  simpl. apply IH. now apply run_keeps_entry.
Qed.

End Protocol.

(** ** Properties of the quoter *)

Section QuoterProperties.
Context `{PrintTables}.

#[local] Arguments String.append : simpl nomatch.

Lemma hasByte_Join (c d : ascii) (l : list string) :
  Ascii.eqb c d = false ->
  Forall (fun s => hasByte c s = false) l ->
  hasByte c (Strings.Join l (String d "")) = false.
Proof.
  intros Hd. induction 1 as [|x l Hx Hl IH]; [reflexivity|].
  destruct l as [|y l]; [exact Hx|].
  rewrite Join_cons by discriminate.
  rewrite !hasByte_app, Hx, IH. simpl. now rewrite Hd.
Qed.

Lemma quoteColumn_other (name driver : string) :
  driver <> driverMysql -> quoteColumn name driver = Strconv.Quote name.
Proof.
  intros Hne. unfold quoteColumn.
  apply String.eqb_neq in Hne. now rewrite Hne.
Qed.

Lemma quoteIdentifier_segments (segs : list string) (driver : string) :
  segs <> [] ->
  Forall (fun s => hasByte "." s = false /\ hasByte (quoteByte driver) s = false) segs ->
  quoteIdentifier (Strings.Join segs ".") driver =
  Strings.Join (map (quoteSegment (quoteSymbol driver)) segs) ".".
Proof.
  intros Hne Hall. rewrite quoteIdentifier_unfold. unfold quoteSymbol.
  rewrite ReplaceAll_clean.
  - rewrite Split_Join; [reflexivity | assumption |].
    eapply Forall_impl; [exact Hall|]. now intros s [Hs _].
  - apply hasByte_Join; [apply quoteByte_not_dot|].
    eapply Forall_impl; [exact Hall|]. now intros s [_ Hs].
Qed.

(** C6. [quoteIdentifier] is idempotent for every dialect: quoting a
    quoted name gives the quoted name, because the dialect's quote
    character is stripped before the segments are quoted again. *)
Theorem quoteIdentifier_idempotent (name driver : string) :
  quoteIdentifier (quoteIdentifier name driver) driver =
  quoteIdentifier name driver.
Proof.
  rewrite (quoteIdentifier_unfold (quoteIdentifier name driver)).
  rewrite strip_quoteIdentifier.
  now rewrite <- quoteIdentifier_unfold.
Qed.

(** Quoting by dialect.  For the MySQL dialect [quoteColumn] wraps the name in
    backticks.  For every other dialect it prints the name with the verb
    [%q]: between double quotes with the content escaped, which is the
    name wrapped in double quotes when every byte of the name is printable
    ASCII other than the double quote and the backslash.
    [quoteIdentifier] strips the dialect's quote character from the name,
    splits it at the dots and quotes each segment with the backtick for
    MySQL and the double quote for every other dialect, except that a
    segment equal to [*] is left as it is; for segments free of dots and
    quote characters the result is the dotted list of the quoted
    segments. *)
Theorem quoting_by_dialect (name driver : string) (segs : list string) :
  quoteColumn name driverMysql = "`" +:+ name +:+ "`" /\
  (driver <> driverMysql ->
   quoteColumn name driver =
   Strconv.dquote +:+ Strconv.quoteLoop 0 name +:+ Strconv.dquote) /\
  (driver <> driverMysql -> plainName name = true ->
   quoteColumn name driver = Strconv.dquote +:+ name +:+ Strconv.dquote) /\
  quoteIdentifier name driver =
    Strings.Join
      (map (quoteSegment (quoteSymbol driver))
           (Strings.Split (Strings.ReplaceAll name (quoteSymbol driver) "") "."))
      "." /\
  (segs <> [] ->
   Forall (fun s => hasByte "." s = false /\ hasByte (quoteByte driver) s = false) segs ->
   quoteIdentifier (Strings.Join segs ".") driver =
   Strings.Join (map (quoteSegment (quoteSymbol driver)) segs) ".") /\
  quoteSymbol driverMysql = "`" /\
  (driver <> driverMysql -> quoteSymbol driver = Strconv.dquote) /\
  (forall sym, quoteSegment sym "*" = "*") /\
  (forall sym s, s <> "*" -> quoteSegment sym s = sym +:+ s +:+ sym).
Proof.
  repeat split.
  - intros Hne. now rewrite quoteColumn_other.
  - intros Hne Hplain. rewrite quoteColumn_other by assumption.
    unfold Strconv.Quote. now rewrite quoteLoop_plainName.
  - apply quoteIdentifier_unfold.
  - apply quoteIdentifier_segments.
  - intros Hne. unfold quoteSymbol, quoteByte.
    apply String.eqb_neq in Hne. now rewrite Hne.
  - intros sym s Hs. unfold quoteSegment.
    apply String.eqb_neq in Hs. now rewrite Hs.
Qed.

End QuoterProperties.

(** C7, on the code.  With a dialect other than MySQL [quoteColumn] does
    not wrap the name as it is: in the name [a], double quote, [b] the
    double quote comes out with a backslash before it, and in the name [a],
    backslash, [b] the backslash comes out doubled.  The MySQL branch of the
    same function wraps both names as they are. *)
Lemma quoteColumn_escapes_the_name :
  (forall T : PrintTables,
     @quoteColumn T Fixture.quotedName driverPostgres =
     Strconv.dquote +:+ "a" +:+ Fixture.backslash +:+ Strconv.dquote +:+ "b"
       +:+ Strconv.dquote) /\
  Strconv.dquote +:+ "a" +:+ Fixture.backslash +:+ Strconv.dquote +:+ "b"
    +:+ Strconv.dquote <>
  Strconv.dquote +:+ Fixture.quotedName +:+ Strconv.dquote /\
  (forall T : PrintTables,
     @quoteColumn T ("a" +:+ Fixture.backslash +:+ "b") driverPostgres =
     Strconv.dquote +:+ "a" +:+ Fixture.backslash +:+ Fixture.backslash +:+ "b"
       +:+ Strconv.dquote) /\
  (forall T : PrintTables,
     @quoteColumn T Fixture.quotedName driverMysql =
     "`" +:+ Fixture.quotedName +:+ "`" /\
     @quoteColumn T ("a" +:+ Fixture.backslash +:+ "b") driverMysql =
     "`" +:+ "a" +:+ Fixture.backslash +:+ "b" +:+ "`").
Proof.
  split; [|split; [|split]].
  - intros T. vm_compute. reflexivity.
  - vm_compute. discriminate.
  - intros T. vm_compute. reflexivity.
  - intros T. split; vm_compute; reflexivity.
Qed.

Lemma quoting_by_dialect_witness :
  @quoteColumn Fixture.narrowTables "email" driverPostgres = Fixture.dq "email" /\
  quoteIdentifier "public.*" driverPostgres = Fixture.dq "public" +:+ ".*".
Proof.
  destruct (@quoting_by_dialect Fixture.narrowTables "email" driverPostgres
              ["public"; "*"])
    as (_ & _ & Hcol & _ & Hsegs & _).
  split.
  - apply Hcol; [discriminate | reflexivity].
  - apply Hsegs; [discriminate|].
    repeat constructor.
Defined.

(** ** Properties of the statement builders *)

Section BuilderProperties.
Context `{PrintTables} `{Entities}.

#[local] Arguments String.append : simpl nomatch.

Lemma returningClause_present (flag : Column -> bool) (md : Metadata)
    (driver : string) :
  returningClause flag md driver <> "" <->
  exists col, In col (Columns md) /\ flag col = true.
Proof.
  unfold returningClause. rewrite <- existsb_exists.
  destruct (existsb flag (Columns md)); split;
    (discriminate || congruence || reflexivity).
Qed.

(** C3. The insert statement lists, in [Columns] order, exactly the
    columns flagged neither ReturningInsert nor AutoIncrement, both as
    quoted columns and as placeholders; the ReturningInsert columns appear
    in the RETURNING clause only; and that clause is appended if and only
    if some column is flagged ReturningInsert. *)
Theorem insert_statement_shape (ent : Entity) (md : Metadata) (driver : string) :
  insertStatement ent md driver =
    "INSERT INTO " +:+ quoteIdentifier (TableName md) driver +:+ " (" +:+
    Strings.Join (map (fun col => quoteColumn (DBField col) driver)
                      (insertedColumns md)) ", "
    +:+ ") VALUES (" +:+
    Strings.Join (map (fun col => ":" +:+ DBField col) (insertedColumns md)) ", "
    +:+ ")" +:+ returningClause ReturningInsert md driver /\
  (forall col, In col (insertedColumns md) <->
               In col (Columns md) /\
               ReturningInsert col = false /\ AutoIncrement col = false) /\
  (returningClause ReturningInsert md driver <> "" <->
   exists col, In col (Columns md) /\ ReturningInsert col = true) /\
  (returningClause ReturningInsert md driver <> "" ->
   returningClause ReturningInsert md driver =
   " RETURNING " +:+
   Strings.Join (map (fun col => quoteColumn (DBField col) driver)
                     (List.filter ReturningInsert (Columns md))) ", ").
Proof.
  split; [apply insertStatement_unfold|].
  split; [|split; [apply returningClause_present|]].
  - intros col. unfold insertedColumns.
    rewrite filter_In, andb_true_iff, !negb_true_iff. tauto.
  - unfold returningClause.
    destruct (existsb ReturningInsert (Columns md)); [reflexivity | congruence].
Qed.

(** C5. With at least one primary key, the select statement lists every
    column in [Columns] order, and its WHERE clause is made of the
    equality predicates of the primary keys, one for each key and in
    [PrimaryKeys] order, joined by AND and followed by [LIMIT 1]. *)
Theorem select_statement_shape (ent : Entity) (md : Metadata) (driver : string) :
  PrimaryKeys md <> [] ->
  selectStatement ent md driver =
    "SELECT " +:+
    Strings.Join (map (fun col => quoteColumn (DBField col) driver) (Columns md)) ", "
    +:+ " FROM " +:+ quoteIdentifier (TableName md) driver +:+ " WHERE " +:+
    Strings.Join (keyPredicates md driver) " AND " +:+ " LIMIT 1" /\
  length (keyPredicates md driver) = length (PrimaryKeys md) /\
  (forall (i : nat) (col : Column),
     PrimaryKeys md !! i = Some col ->
     keyPredicates md driver !! i =
     Some (quoteColumn (DBField col) driver +:+ " = :" +:+ DBField col)).
Proof.
  intros Hpk. split; [|split].
  - rewrite selectStatement_unfold.
    destruct (PrimaryKeys md) eqn:Hk; [congruence|].
    now rewrite ?append_assoc.
  - unfold keyPredicates. apply length_map.
  - intros i col Hi. unfold keyPredicates.
    rewrite list_lookup_fmap, Hi. reflexivity.
Qed.

(** C4, as amended.  For every metadata value and dialect the update
    statement assigns, after [SET], exactly the columns flagged neither
    ReturningUpdate nor RefuseUpdate, in [Columns] order, comma-joined with
    no comma before the first, and its RETURNING clause holds the
    ReturningUpdate columns and is present if and only if there is such a
    column.  When the metadata has at least one primary key, the
    assignments are followed by WHERE and the same AND-joined primary-key
    predicates as in the select statement; these predicates end the
    statement when no column is flagged ReturningUpdate, and the RETURNING
    clause follows them otherwise. *)
Theorem update_statement_shape (ent : Entity) (md : Metadata) (driver : string) :
  updateStatement ent md driver =
    "UPDATE " +:+ quoteIdentifier (TableName md) driver +:+ " SET" +:+
    setClause md driver +:+ whereClause md driver +:+
    returningClause ReturningUpdate md driver /\
  (forall col, In col (assignedColumns md) <->
               In col (Columns md) /\
               ReturningUpdate col = false /\ RefuseUpdate col = false) /\
  (assignedColumns md <> [] ->
   setClause md driver =
   " " +:+ Strings.Join (map (assignment driver) (assignedColumns md)) ", ") /\
  (returningClause ReturningUpdate md driver <> "" <->
   exists col, In col (Columns md) /\ ReturningUpdate col = true) /\
  (returningClause ReturningUpdate md driver <> "" ->
   returningClause ReturningUpdate md driver =
   " RETURNING " +:+
   Strings.Join (map (fun col => quoteColumn (DBField col) driver)
                     (List.filter ReturningUpdate (Columns md))) ", ") /\
  (PrimaryKeys md <> [] ->
   updateStatement ent md driver =
     "UPDATE " +:+ quoteIdentifier (TableName md) driver +:+ " SET" +:+
     setClause md driver +:+ " WHERE " +:+
     Strings.Join (keyPredicates md driver) " AND " +:+
     returningClause ReturningUpdate md driver /\
   selectStatement ent md driver =
     "SELECT " +:+
     Strings.Join (map (fun col => quoteColumn (DBField col) driver) (Columns md)) ", "
     +:+ " FROM " +:+ quoteIdentifier (TableName md) driver +:+ " WHERE " +:+
     Strings.Join (keyPredicates md driver) " AND " +:+ " LIMIT 1") /\
  (PrimaryKeys md <> [] -> existsb ReturningUpdate (Columns md) = false ->
   endsWith (updateStatement ent md driver)
            (Strings.Join (keyPredicates md driver) " AND ") = true).
Proof.
  split; [apply updateStatement_unfold|].
  split; [|split; [|split; [apply returningClause_present|split; [|split]]]].
  - intros col. unfold assignedColumns.
    rewrite filter_In, andb_true_iff, !negb_true_iff. tauto.
  - intros Hset. unfold setClause.
    destruct (assignedColumns md); [congruence | reflexivity].
  - unfold returningClause.
    destruct (existsb ReturningUpdate (Columns md)); [reflexivity | congruence].
  - intros Hpk. split.
    + rewrite updateStatement_unfold. unfold whereClause.
      destruct (PrimaryKeys md) eqn:Hk; [congruence|].
      now rewrite ?append_assoc.
    + rewrite selectStatement_unfold.
      destruct (PrimaryKeys md) eqn:Hk; [congruence|].
      now rewrite ?append_assoc.
  - intros Hpk Hnone. apply endsWith_spec.
    rewrite updateStatement_unfold. unfold returningClause, whereClause.
    rewrite Hnone. destruct (PrimaryKeys md) eqn:Hk; [congruence|].
    rewrite append_nil_r.
    exists ("UPDATE " +:+ quoteIdentifier (TableName md) driver +:+ " SET" +:+
            setClause md driver +:+ " WHERE ").
    now rewrite ?append_assoc.
Qed.

(** C10. When every column is flagged ReturningUpdate or RefuseUpdate,
    [updateStatement] still returns a statement, and nothing stands
    between its [SET] keyword and the WHERE clause. *)
Theorem update_without_assignment (ent : Entity) (md : Metadata) (driver : string) :
  forallb (fun col => ReturningUpdate col || RefuseUpdate col) (Columns md) = true ->
  updateStatement ent md driver =
  "UPDATE " +:+ quoteIdentifier (TableName md) driver +:+ " SET" +:+
  whereClause md driver +:+ returningClause ReturningUpdate md driver.
Proof.
  intros Hall. rewrite updateStatement_unfold.
  assert (Hnone : assignedColumns md = []).
  { unfold assignedColumns. induction (Columns md) as [|col l IH]; [reflexivity|].
    simpl in Hall |- *. apply andb_true_iff in Hall as [Hcol Hl].
    rewrite <- negb_orb, Hcol. simpl. now apply IH. }
  unfold setClause. now rewrite Hnone.
Qed.

End BuilderProperties.

(** The update of the account table on PostgreSQL: [created_at] and [id]
    refuse updates, so [email] alone is assigned. *)
Example account_update_statement :
  @updateStatement Fixture.narrowTables Fixture.accounts
    Fixture.alice Fixture.accountMetadata driverPostgres =
  "UPDATE " +:+ Fixture.dq "account" +:+ " SET " +:+ Fixture.dq "email"
    +:+ " = :email WHERE " +:+ Fixture.dq "id" +:+ " = :id".
Proof. vm_compute. reflexivity. Qed.

(** Without primary keys the select statement has an empty WHERE clause and
    the update statement has none. *)
Example statements_without_keys :
  let md := {| Type_ := "Log"; TableName := "log";
               Columns := [Fixture.emailColumn]; PrimaryKeys := [];
               hasReturningInsert := false; hasReturningUpdate := false |} in
  @selectStatement Fixture.narrowTables Fixture.accounts Fixture.alice md driverMysql
    = "SELECT `email` FROM `log` WHERE LIMIT 1" /\
  @updateStatement Fixture.narrowTables Fixture.accounts Fixture.alice md driverMysql
    = "UPDATE `log` SET `email` = :email".
Proof. split; vm_compute; reflexivity. Qed.

Lemma insert_statement_shape_witness :
  @insertStatement Fixture.narrowTables Fixture.accounts
    Fixture.alice Fixture.stampedMetadata driverPostgres =
  "INSERT INTO " +:+ Fixture.dq "account" +:+ " (" +:+ Fixture.dq "email"
    +:+ ") VALUES (:email) RETURNING " +:+ Fixture.dq "created_at".
Proof.
  destruct (@insert_statement_shape Fixture.narrowTables Fixture.accounts
              Fixture.alice Fixture.stampedMetadata driverPostgres)
    as (Hshape & _).
  exact Hshape.
Defined.

Lemma select_statement_shape_witness :
  @selectStatement Fixture.narrowTables Fixture.accounts
    Fixture.alice Fixture.accountMetadata driverMysql =
  "SELECT `id`, `email`, `created_at` FROM `account` WHERE `id` = :id LIMIT 1".
Proof.
  destruct (@select_statement_shape Fixture.narrowTables Fixture.accounts
              Fixture.alice Fixture.accountMetadata driverMysql)
    as (Hshape & _); [discriminate|].
  exact Hshape.
Defined.

(** C4, the claim as stated fails: with a column flagged ReturningUpdate the
    statement does not end with the key predicates; the RETURNING clause
    comes after them. *)
Lemma update_statement_ends_with_returning :
  (forall T : PrintTables,
     @updateStatement T Fixture.accounts Fixture.alice Fixture.auditedMetadata
       driverPostgres =
     "UPDATE " +:+ Fixture.dq "account" +:+ " SET " +:+ Fixture.dq "email"
       +:+ " = :email WHERE " +:+ Fixture.dq "id" +:+ " = :id RETURNING "
       +:+ Fixture.dq "updated_at") /\
  (forall T : PrintTables,
     endsWith
       (@updateStatement T Fixture.accounts Fixture.alice Fixture.auditedMetadata
          driverPostgres)
       (Strings.Join (@keyPredicates T Fixture.auditedMetadata driverPostgres) " AND ")
     = false).
Proof.
  split; intros T; vm_compute; reflexivity.
Qed.

Lemma update_statement_shape_witness :
  @updateStatement Fixture.narrowTables Fixture.accounts
    Fixture.alice Fixture.accountMetadata driverMysql =
    "UPDATE `account` SET `email` = :email WHERE `id` = :id" /\
  endsWith
    (@updateStatement Fixture.narrowTables Fixture.accounts
       Fixture.alice Fixture.accountMetadata driverMysql)
    "`id` = :id" = true.
Proof.
  destruct (@update_statement_shape Fixture.narrowTables Fixture.accounts
              Fixture.alice Fixture.accountMetadata driverMysql)
    as (_ & _ & _ & _ & _ & Hkeys & Hends).
  split.
  - destruct Hkeys as (Hshape & _); [discriminate|]. exact Hshape.
  - apply Hends; [discriminate | reflexivity].
Defined.

Lemma update_without_assignment_witness :
  @updateStatement Fixture.narrowTables Fixture.accounts
    Fixture.alice Fixture.frozenMetadata driverMysql =
  "UPDATE `frozen` SET WHERE `id` = :id RETURNING `seen_at`".
Proof.
  apply (@update_without_assignment Fixture.narrowTables Fixture.accounts
           Fixture.alice Fixture.frozenMetadata driverMysql).
  reflexivity.
Defined.

(** ** Properties of the protocol *)

Section ProtocolProperties.
Context `{PrintTables} `{Entities}.

Ltac unfold_protocol :=
  unfold doLoad, doInsert, doUpdate, doDelete,
    mbind, M_bind, mret, M_ret, getWorld,
    setSelect, setInsert, setUpdate, setDelete, logCall, cachedOr in *.

(** C1, on the code.  An insert without returning columns on a dialect
    other than PostgreSQL, executed successfully and with a last-insert-id
    reported without error, returns that id together with an error that is
    not nil: what [fmt.Errorf] makes of the nil error of [LastInsertId]. *)
Theorem doInsert_last_insert_id_error (ent : Entity) (db : DB) (md : Metadata)
    (w : World) (result : Result) (lastID : Z) :
  getMetadata ent = inl md ->
  hasReturningInsert md = false ->
  dbDriver db <> driverPostgres ->
  NamedExecContext db
    (cachedOr (insertStatements w) (Type_ md) (insertStatement ent md (dbDriver db)))
    ent = inl result ->
  LastInsertId result = (lastID, None) ->
  (doInsert ent db w).1 =
  (ent, (lastID, Some (errorString "get last insert id, %!w(<nil>)"))).
Proof.
  intros Hmd Hret Hdrv Hexec Hid. apply String.eqb_neq in Hdrv.
  unfold_protocol. rewrite Hmd, Hret.
  destruct (insertStatements w !! Type_ md) as [stmt|]; simpl in *;
    now rewrite Hexec, Hdrv, Hid.
Qed.

(** C2. A load whose query produces no row returns [sql.ErrNoRows]; an
    update without returning columns whose execution reports zero affected
    rows returns [sql.ErrNoRows]; a delete whose execution succeeds
    returns no error, whatever the number of affected rows. *)
Theorem not_found_semantics (ent : Entity) (db : DB) (md : Metadata) (w : World) :
  getMetadata ent = inl md ->
  (forall rows : Rows,
     NamedQueryContext db
       (cachedOr (selectStatements w) (Type_ md) (selectStatement ent md (dbDriver db)))
       ent = inl rows ->
     Next rows = false ->
     (doLoad ent db w).1 = (ent, Some ErrNoRows)) /\
  (forall result : Result,
     hasReturningUpdate md = false ->
     NamedExecContext db
       (cachedOr (updateStatements w) (Type_ md) (updateStatement ent md (dbDriver db)))
       ent = inl result ->
     RowsAffected result = (0, None) ->
     (doUpdate ent db w).1 = (ent, Some ErrNoRows)) /\
  (forall result : Result,
     NamedExecContext db
       (cachedOr (deleteStatements w) (Type_ md) (deleteStatement ent md (dbDriver db)))
       ent = inl result ->
     (doDelete ent db w).1 = (ent, None)).
Proof.
  intros Hmd. repeat split.
  - intros rows Hquery Hnext. unfold_protocol. rewrite Hmd.
    destruct (selectStatements w !! Type_ md) as [stmt|]; simpl in *;
      now rewrite Hquery, Hnext.
  - intros result Hret Hexec Hrows. unfold_protocol. rewrite Hmd, Hret.
    destruct (updateStatements w !! Type_ md) as [stmt|]; simpl in *;
      now rewrite Hexec, Hrows.
  - intros result Hexec. unfold_protocol. rewrite Hmd.
    destruct (deleteStatements w !! Type_ md) as [stmt|]; simpl in *;
      now rewrite Hexec.
Qed.

(** C8. [isConflictError] is true exactly when the handle's dialect is
    PostgreSQL, MySQL or SQLite and the error's message contains that
    dialect's phrase: true when it does, false when it does not. *)
Theorem isConflictError_by_dialect (db : DB) (err : error) :
  isConflictError db err = true <->
  (dbDriver db = driverPostgres /\
   occursIn "duplicate key value violates unique constraint" (Error err)) \/
  (dbDriver db = driverMysql /\ occursIn "Duplicate entry" (Error err)) \/
  (dbDriver db = driverSqlite3 /\ occursIn "UNIQUE constraint failed" (Error err)).
Proof.
  unfold isConflictError.
  destruct (String.eqb_spec (dbDriver db) driverPostgres) as [Hpg|Hpg].
  - rewrite Contains_occursIn, Hpg. split; [tauto|].
    intros [[_ Hin] | [[Hd _] | [Hd _]]]; [exact Hin | discriminate Hd..].
  - destruct (String.eqb_spec (dbDriver db) driverMysql) as [Hmy|Hmy].
    + rewrite Contains_occursIn, Hmy. split; [tauto|].
      intros [[Hd _] | [[_ Hin] | [Hd _]]]; [discriminate Hd | exact Hin | discriminate Hd].
    + destruct (String.eqb_spec (dbDriver db) driverSqlite3) as [Hsq|Hsq].
      * rewrite Contains_occursIn. split; [tauto|].
        intros [[Hd _] | [[Hd _] | [_ Hin]]]; [congruence.. | exact Hin].
      * split; [discriminate|]. tauto.
Qed.

(** C9. The statement maps are keyed by the entity type only.  Once a call
    has built and stored the statement of a type with the dialect of its
    handle, the entry stays as it is through every later call of any kind,
    and a later call for that type hands that text to its own handle,
    whatever the dialect of that handle. *)
Theorem statements_cached_by_type_only (k : Kind) (ent1 ent2 : Entity)
    (db1 db2 : DB) (md1 md2 : Metadata) (ops : list Op) (w : World) :
  getMetadata ent1 = inl md1 ->
  getMetadata ent2 = inl md2 ->
  Type_ md2 = Type_ md1 ->
  cacheOf k w !! Type_ md1 = None ->
  let built := build k ent1 md1 (dbDriver db1) in
  let w1 := run (Call k ent1 db1) w in
  let w2 := runAll ops w1 in
  let w3 := run (Call k ent2 db2) w2 in
  cacheOf k w1 !! Type_ md1 = Some built /\
  cacheOf k w2 !! Type_ md1 = Some built /\
  cacheOf k w3 !! Type_ md1 = Some built /\
  stmtOf <$> head (dbCalls w3) = Some built.
Proof.
  intros Hmd1 Hmd2 Htype Hmiss built w1 w2 w3.
  assert (H1 : cacheOf k w1 !! Type_ md1 = Some built).
  { subst w1. destruct (run_world k ent1 db1 md1 w Hmd1) as (Hsame & _).
    rewrite Hsame. unfold cachedOr. rewrite Hmiss. simpl.
    apply lookup_insert_eq. }
  assert (H2 : cacheOf k w2 !! Type_ md1 = Some built)
    by now apply runAll_keeps_entry.
  repeat split; [exact H1 | exact H2 | now apply run_keeps_entry |].
  subst w3. destruct (run_world k ent2 db2 md2 w2 Hmd2) as (_ & _ & c & Hc & Hstmt).
  rewrite Hc. simpl. rewrite Hstmt. unfold cachedOr.
  now rewrite Htype, H2.
Qed.

End ProtocolProperties.

Lemma doInsert_last_insert_id_error_witness :
  (@doInsert Fixture.narrowTables Fixture.accounts
     Fixture.alice (Fixture.idleHandle driverMysql) emptyWorld).1 =
  (Fixture.alice, (7, Some (errorString "get last insert id, %!w(<nil>)"))).
Proof.
  apply (@doInsert_last_insert_id_error Fixture.narrowTables Fixture.accounts
           Fixture.alice (Fixture.idleHandle driverMysql) Fixture.accountMetadata
           emptyWorld {| LastInsertId := (7, None); RowsAffected := (0, None) |} 7).
  - reflexivity.
  - reflexivity.
  - vm_compute. discriminate.
  - reflexivity.
  - reflexivity.
Defined.

Lemma not_found_semantics_witness :
  (@doLoad Fixture.narrowTables Fixture.accounts
     Fixture.alice (Fixture.idleHandle driverMysql) emptyWorld).1 =
    (Fixture.alice, Some ErrNoRows) /\
  (@doUpdate Fixture.narrowTables Fixture.accounts
     Fixture.alice (Fixture.idleHandle driverMysql) emptyWorld).1 =
    (Fixture.alice, Some ErrNoRows) /\
  (@doDelete Fixture.narrowTables Fixture.accounts
     Fixture.alice (Fixture.idleHandle driverMysql) emptyWorld).1 =
    (Fixture.alice, None).
Proof.
  destruct (@not_found_semantics Fixture.narrowTables Fixture.accounts
              Fixture.alice (Fixture.idleHandle driverMysql) Fixture.accountMetadata
              emptyWorld eq_refl)
    as (Hload & Hupdate & Hdelete).
  split; [|split].
  - eapply Hload; reflexivity.
  - eapply Hupdate; reflexivity.
  - eapply Hdelete; reflexivity.
Defined.

Lemma statements_cached_by_type_only_witness :
  stmtOf <$>
    head (dbCalls
            (@run Fixture.narrowTables Fixture.accounts
               (@Call Fixture.accounts Select Fixture.alice (Fixture.idleHandle "pgx"))
               (@runAll Fixture.narrowTables Fixture.accounts
                  [@Call Fixture.accounts Update Fixture.alice (Fixture.idleHandle driverSqlite3)]
                  (@run Fixture.narrowTables Fixture.accounts
                     (@Call Fixture.accounts Select Fixture.alice (Fixture.idleHandle driverMysql))
                     emptyWorld)))) =
  Some "SELECT `id`, `email`, `created_at` FROM `account` WHERE `id` = :id LIMIT 1".
Proof.
  destruct (@statements_cached_by_type_only Fixture.narrowTables Fixture.accounts
              Select Fixture.alice Fixture.alice
              (Fixture.idleHandle driverMysql) (Fixture.idleHandle "pgx")
              Fixture.accountMetadata Fixture.accountMetadata
              [@Call Fixture.accounts Update Fixture.alice (Fixture.idleHandle driverSqlite3)]
              emptyWorld eq_refl eq_refl eq_refl eq_refl)
    as (_ & _ & _ & Hsent).
  exact Hsent.
Defined.

(** ** Dialects: resolution, quoting and classification *)

Section DialectProperties.
Context `{PrintTables} `{Entities}.

#[local] Arguments String.append : simpl nomatch.

Lemma plainName_no_dquote (s : string) :
  plainName s = true -> hasByte (ascii_of_nat 34) s = false.
Proof.
  induction s as [|a s IH]; [reflexivity|].
  simpl plainName. rewrite andb_true_iff. intros [Ha Hs].
  change (hasByte (ascii_of_nat 34) (String a s))
    with (Ascii.eqb (ascii_of_nat 34) a || hasByte (ascii_of_nat 34) s).
  rewrite (IH Hs), orb_false_r. apply Ascii.eqb_neq. intros <-.
  vm_compute in Ha. discriminate Ha.
Qed.

Lemma Contains_after (text s phrase : string) :
  Strings.Contains s phrase = true ->
  Strings.Contains (text +:+ s) phrase = true.
Proof.
  rewrite !Contains_occursIn. intros [l [r ->]].
  exists (text +:+ l), r. now rewrite append_assoc.
Qed.

(** The alias table maps [pgx] to the PostgreSQL dialect and leaves every
    other driver name as it is; the resolved dialect is PostgreSQL exactly
    for the driver names [postgres] and [pgx], and it is never [pgx]. *)
Theorem dbDriver_resolves_alias (db : DB) :
  (DriverName db = "pgx" -> dbDriver db = driverPostgres) /\
  (DriverName db <> "pgx" -> dbDriver db = DriverName db) /\
  (dbDriver db = driverPostgres <->
   DriverName db = driverPostgres \/ DriverName db = "pgx") /\
  dbDriver db <> "pgx".
Proof.
  rewrite dbDriver_alias.
  destruct (String.eqb_spec (DriverName db) "pgx") as [Hpgx|Hne].
  - repeat split; try discriminate; auto; congruence.
  - repeat split; auto; try congruence. intros [Hpg|Hpgx]; congruence.
Qed.

(** Removing the dialect's quote character from a quoted identifier gives
    the name back, when the name holds no such character: quoting adds
    quote characters and changes nothing else. *)
Theorem quoteIdentifier_unquote (name driver : string) :
  hasByte (quoteByte driver) name = false ->
  Strings.ReplaceAll (quoteIdentifier name driver) (quoteSymbol driver) "" = name.
Proof.
  intros Hclean. rewrite strip_quoteIdentifier.
  unfold quoteSymbol. now apply ReplaceAll_clean.
Qed.

(** On a simple name the two quoters agree: for a name without dots, other
    than [*], [quoteIdentifier] gives what [quoteColumn] gives, provided the
    name has no backtick (MySQL) or is made of plain bytes (other
    dialects). *)
Theorem quoters_agree_on_simple_names (name driver : string) :
  hasByte "." name = false ->
  name <> "*" ->
  (if String.eqb driver driverMysql then hasByte "`" name = false
   else plainName name = true) ->
  quoteIdentifier name driver = quoteColumn name driver.
Proof.
  intros Hdot Hstar Hplain.
  assert (Hq : hasByte (quoteByte driver) name = false).
  { unfold quoteByte. destruct (String.eqb driver driverMysql);
      [exact Hplain | now apply plainName_no_dquote]. }
  pose proof (quoteIdentifier_segments [name] driver) as Hsegs.
  simpl in Hsegs. rewrite Hsegs; [|discriminate | now repeat constructor].
  unfold quoteSegment. apply String.eqb_neq in Hstar. rewrite Hstar.
  unfold quoteColumn, quoteSymbol, quoteByte.
  destruct (String.eqb driver driverMysql); [reflexivity|].
  unfold Strconv.Quote. now rewrite quoteLoop_plainName.
Qed.

(** The four builders read the dialect only to tell MySQL from the rest,
    and do not read the entity: for one metadata value, any two dialects
    other than MySQL give the same statement text. *)
Theorem statement_same_off_mysql (k : Kind) (ent1 ent2 : Entity) (md : Metadata)
    (d1 d2 : string) :
  d1 <> driverMysql -> d2 <> driverMysql ->
  build k ent1 md d1 = build k ent2 md d2.
Proof.
  intros H1 H2. apply String.eqb_neq in H1, H2.
  destruct k; simpl;
    unfold selectStatement, insertStatement, updateStatement, deleteStatement,
      quoteColumn, quoteIdentifier;
    now rewrite H1, H2.
Qed.

(** Classification follows the message through [fmt.Errorf]: under a
    leading text that holds no verb of its own (no percent sign), as the
    four texts of db.go, an error that is a conflict for a handle is still
    one after it was wrapped; and [sql.ErrNoRows] is a conflict for no
    handle. *)
Theorem conflict_survives_wrapping (db : DB) (err : error) (text : string) :
  hasByte "%" text = false ->
  (isConflictError db err = true ->
   isConflictError db (Errorf_w text (Some err)) = true) /\
  isConflictError db ErrNoRows = false.
Proof.
  intros _. unfold isConflictError. simpl Error.
  destruct (String.eqb (dbDriver db) driverPostgres);
    [split; [apply Contains_after | reflexivity]|].
  destruct (String.eqb (dbDriver db) driverMysql);
    [split; [apply Contains_after | reflexivity]|].
  destruct (String.eqb (dbDriver db) driverSqlite3);
    [split; [apply Contains_after | reflexivity]|].
  split; [discriminate | reflexivity].
Qed.

End DialectProperties.

Lemma quoteIdentifier_unquote_witness :
  Strings.ReplaceAll (quoteIdentifier "public.account" driverPostgres)
    (quoteSymbol driverPostgres) "" = "public.account".
Proof.
  apply (quoteIdentifier_unquote "public.account" driverPostgres).
  reflexivity.
Defined.

Lemma quoters_agree_on_simple_names_witness :
  quoteIdentifier "email" driverPostgres =
  @quoteColumn Fixture.narrowTables "email" driverPostgres.
Proof.
  apply (@quoters_agree_on_simple_names Fixture.narrowTables "email" driverPostgres).
  - reflexivity.
  - discriminate.
  - reflexivity.
Defined.

Lemma statement_same_off_mysql_witness :
  @build Fixture.narrowTables Fixture.accounts Update
    Fixture.alice Fixture.accountMetadata driverPostgres =
  @build Fixture.narrowTables Fixture.accounts Update
    Fixture.bob Fixture.accountMetadata "oracle".
Proof.
  apply (@statement_same_off_mysql Fixture.narrowTables Fixture.accounts Update
           Fixture.alice Fixture.bob Fixture.accountMetadata driverPostgres "oracle");
    discriminate.
Defined.

Lemma conflict_survives_wrapping_witness :
  @isConflictError Fixture.accounts (Fixture.idleHandle driverMysql)
    (Errorf_w "scan struct, " (Some Fixture.duplicateEntry)) = true.
Proof.
  destruct (@conflict_survives_wrapping Fixture.accounts
              (Fixture.idleHandle driverMysql) Fixture.duplicateEntry
              "scan struct, " eq_refl)
    as (Hwrap & _).
  apply Hwrap. vm_compute. reflexivity.
Defined.

(** ** The builders at the edges *)

Section BuilderEdges.
Context `{PrintTables} `{Entities}.

#[local] Arguments String.append : simpl nomatch.

(** With at least one primary key the delete statement is [DELETE FROM] the
    quoted table, then [WHERE] and the key predicates of the select
    statement joined by AND, and nothing after them: no LIMIT and no
    RETURNING clause. *)
Theorem delete_statement_shape (ent : Entity) (md : Metadata) (driver : string) :
  PrimaryKeys md <> [] ->
  deleteStatement ent md driver =
    "DELETE FROM " +:+ quoteIdentifier (TableName md) driver +:+ " WHERE " +:+
    Strings.Join (keyPredicates md driver) " AND " /\
  selectStatement ent md driver =
    "SELECT " +:+
    Strings.Join (map (fun col => quoteColumn (DBField col) driver) (Columns md)) ", "
    +:+ " FROM " +:+ quoteIdentifier (TableName md) driver +:+ " WHERE " +:+
    Strings.Join (keyPredicates md driver) " AND " +:+ " LIMIT 1" /\
  endsWith (deleteStatement ent md driver)
           (Strings.Join (keyPredicates md driver) " AND ") = true.
Proof.
  intros Hpk.
  assert (Hdel : deleteStatement ent md driver =
                 "DELETE FROM " +:+ quoteIdentifier (TableName md) driver
                 +:+ " WHERE " +:+ Strings.Join (keyPredicates md driver) " AND ").
  { rewrite deleteStatement_unfold.
    destruct (PrimaryKeys md) eqn:Hk; [congruence|]. now rewrite ?append_assoc. }
  split; [exact Hdel|split].
  - rewrite selectStatement_unfold.
    destruct (PrimaryKeys md) eqn:Hk; [congruence|]. now rewrite ?append_assoc.
  - apply endsWith_spec. rewrite Hdel.
    exists ("DELETE FROM " +:+ quoteIdentifier (TableName md) driver +:+ " WHERE ").
    now rewrite ?append_assoc.
Qed.

(** The builders do not refuse metadata without primary keys.  The select
    statement then reads [WHERE LIMIT 1], the delete statement ends with a
    bare [WHERE], and the update statement has no WHERE clause at all: its
    assignments are followed at once by the RETURNING clause, if any. *)
Theorem statements_without_primary_keys (ent : Entity) (md : Metadata)
    (driver : string) :
  PrimaryKeys md = [] ->
  selectStatement ent md driver =
    "SELECT " +:+
    Strings.Join (map (fun col => quoteColumn (DBField col) driver) (Columns md)) ", "
    +:+ " FROM " +:+ quoteIdentifier (TableName md) driver +:+ " WHERE LIMIT 1" /\
  deleteStatement ent md driver =
    "DELETE FROM " +:+ quoteIdentifier (TableName md) driver +:+ " WHERE" /\
  updateStatement ent md driver =
    "UPDATE " +:+ quoteIdentifier (TableName md) driver +:+ " SET" +:+
    setClause md driver +:+ returningClause ReturningUpdate md driver.
Proof.
  intros Hpk. split; [|split].
  - rewrite selectStatement_unfold, Hpk. reflexivity.
  - rewrite deleteStatement_unfold, Hpk. now rewrite append_nil_r.
  - rewrite updateStatement_unfold. unfold whereClause. now rewrite Hpk.
Qed.

(** When every column is flagged ReturningInsert or AutoIncrement the
    insert statement is still built, with an empty column list and an empty
    value list. *)
Theorem insert_without_columns (ent : Entity) (md : Metadata) (driver : string) :
  forallb (fun col => ReturningInsert col || AutoIncrement col) (Columns md) = true ->
  insertStatement ent md driver =
  "INSERT INTO " +:+ quoteIdentifier (TableName md) driver +:+ " () VALUES ()" +:+
  returningClause ReturningInsert md driver.
Proof.
  intros Hall. rewrite insertStatement_unfold.
  assert (Hnone : insertedColumns md = []).
  { unfold insertedColumns. induction (Columns md) as [|col l IH]; [reflexivity|].
    simpl in Hall |- *. apply andb_true_iff in Hall as [Hcol Hl].
    rewrite <- negb_orb, Hcol. simpl. now apply IH. }
  rewrite Hnone. reflexivity.
Qed.

End BuilderEdges.

Lemma delete_statement_shape_witness :
  @deleteStatement Fixture.narrowTables Fixture.accounts
    Fixture.alice Fixture.accountMetadata driverMysql =
  "DELETE FROM `account` WHERE `id` = :id".
Proof.
  destruct (@delete_statement_shape Fixture.narrowTables Fixture.accounts
              Fixture.alice Fixture.accountMetadata driverMysql)
    as (Hshape & _); [discriminate|].
  exact Hshape.
Defined.

Lemma statements_without_primary_keys_witness :
  @deleteStatement Fixture.narrowTables Fixture.accounts
    Fixture.alice Fixture.keylessMetadata driverMysql = "DELETE FROM `log` WHERE" /\
  @updateStatement Fixture.narrowTables Fixture.accounts
    Fixture.alice Fixture.keylessMetadata driverMysql =
    "UPDATE `log` SET `email` = :email".
Proof.
  destruct (@statements_without_primary_keys Fixture.narrowTables Fixture.accounts
              Fixture.alice Fixture.keylessMetadata driverMysql eq_refl)
    as (_ & Hdelete & Hupdate).
  split; [exact Hdelete | exact Hupdate].
Defined.

Lemma insert_without_columns_witness :
  @insertStatement Fixture.narrowTables Fixture.accounts
    Fixture.alice Fixture.generatedMetadata driverMysql =
  "INSERT INTO `ticket` () VALUES () RETURNING `issued_at`".
Proof.
  apply (@insert_without_columns Fixture.narrowTables Fixture.accounts
           Fixture.alice Fixture.generatedMetadata driverMysql).
  reflexivity.
Defined.

(** ** The protocol: errors, rows and handle calls *)

Section ProtocolOutcomes.
Context `{PrintTables} `{Entities}.

Ltac protocol_steps :=
  unfold doLoad, doInsert, doUpdate, doDelete,
    mbind, M_bind, mret, M_ret, getWorld,
    setSelect, setInsert, setUpdate, setDelete, logCall, cachedOr in *.

Ltac split_answers :=
  repeat match goal with
         | |- context [match ?x with _ => _ end] =>
             lazymatch x with
             | context [match _ with _ => _ end] => fail
             | _ => destruct x; simpl
             end
         end.

(** A failed metadata lookup ends each of the four operations at once: the
    error comes back wrapped by [fmt.Errorf] under the text
    [get metadata, ], the insert id is 0, the entity is as it was, no
    statement is built or stored and the handle is not called. *)
Theorem metadata_error_stops_call (ent : Entity) (db : DB) (err : error) (w : World) :
  getMetadata ent = inr err ->
  let wrapped := wrapError ("get metadata, " +:+ Error err) err in
  doLoad ent db w = (ent, Some wrapped, w) /\
  doInsert ent db w = (ent, (0, Some wrapped), w) /\
  doUpdate ent db w = (ent, Some wrapped, w) /\
  doDelete ent db w = (ent, Some wrapped, w).
Proof.
  intros Hmd wrapped. protocol_steps. now rewrite Hmd.
Qed.

(** An error of the handle comes back as it is, not wrapped, from each of
    the four operations and from both paths of insert and update; the
    entity is as it was and the insert id is 0. *)
Theorem driver_error_passes_through (ent : Entity) (db : DB) (md : Metadata)
    (w : World) (err : error) :
  getMetadata ent = inl md ->
  (NamedQueryContext db
     (cachedOr (selectStatements w) (Type_ md) (selectStatement ent md (dbDriver db)))
     ent = inr err ->
   (doLoad ent db w).1 = (ent, Some err)) /\
  (hasReturningInsert md = true ->
   NamedQueryContext db
     (cachedOr (insertStatements w) (Type_ md) (insertStatement ent md (dbDriver db)))
     ent = inr err ->
   (doInsert ent db w).1 = (ent, (0, Some err))) /\
  (hasReturningInsert md = false ->
   NamedExecContext db
     (cachedOr (insertStatements w) (Type_ md) (insertStatement ent md (dbDriver db)))
     ent = inr err ->
   (doInsert ent db w).1 = (ent, (0, Some err))) /\
  (hasReturningUpdate md = true ->
   NamedQueryContext db
     (cachedOr (updateStatements w) (Type_ md) (updateStatement ent md (dbDriver db)))
     ent = inr err ->
   (doUpdate ent db w).1 = (ent, Some err)) /\
  (hasReturningUpdate md = false ->
   NamedExecContext db
     (cachedOr (updateStatements w) (Type_ md) (updateStatement ent md (dbDriver db)))
     ent = inr err ->
   (doUpdate ent db w).1 = (ent, Some err)) /\
  (NamedExecContext db
     (cachedOr (deleteStatements w) (Type_ md) (deleteStatement ent md (dbDriver db)))
     ent = inr err ->
   (doDelete ent db w).1 = (ent, Some err)).
Proof.
  intros Hmd. repeat split.
  - intros Hans. protocol_steps. rewrite Hmd.
    destruct (selectStatements w !! Type_ md); simpl in *; now rewrite Hans.
  - intros Hret Hans. protocol_steps. rewrite Hmd, Hret.
    destruct (insertStatements w !! Type_ md); simpl in *; now rewrite Hans.
  - intros Hret Hans. protocol_steps. rewrite Hmd, Hret.
    destruct (insertStatements w !! Type_ md); simpl in *; now rewrite Hans.
  - intros Hret Hans. protocol_steps. rewrite Hmd, Hret.
    destruct (updateStatements w !! Type_ md); simpl in *; now rewrite Hans.
  - intros Hret Hans. protocol_steps. rewrite Hmd, Hret.
    destruct (updateStatements w !! Type_ md); simpl in *; now rewrite Hans.
  - intros Hans. protocol_steps. rewrite Hmd.
    destruct (deleteStatements w !! Type_ md); simpl in *; now rewrite Hans.
Qed.

(** Past the metadata lookup every operation calls the handle exactly
    once, whatever the handle answers: a load runs a query, a delete runs a
    command, and an insert or an update runs a query when the metadata has
    returning columns and a command otherwise. *)
Theorem one_handle_call_per_operation (ent : Entity) (db : DB) (md : Metadata)
    (w : World) :
  getMetadata ent = inl md ->
  dbCalls (doLoad ent db w).2 =
    QueryCall (cachedOr (selectStatements w) (Type_ md)
                 (selectStatement ent md (dbDriver db))) :: dbCalls w /\
  dbCalls (doInsert ent db w).2 =
    (if hasReturningInsert md then QueryCall else ExecCall)
      (cachedOr (insertStatements w) (Type_ md)
         (insertStatement ent md (dbDriver db))) :: dbCalls w /\
  dbCalls (doUpdate ent db w).2 =
    (if hasReturningUpdate md then QueryCall else ExecCall)
      (cachedOr (updateStatements w) (Type_ md)
         (updateStatement ent md (dbDriver db))) :: dbCalls w /\
  dbCalls (doDelete ent db w).2 =
    ExecCall (cachedOr (deleteStatements w) (Type_ md)
                (deleteStatement ent md (dbDriver db))) :: dbCalls w.
Proof.
  intros Hmd. protocol_steps. rewrite Hmd. repeat split.
  - destruct (selectStatements w !! Type_ md); simpl; split_answers; reflexivity.
  - destruct (insertStatements w !! Type_ md), (hasReturningInsert md); simpl;
      split_answers; reflexivity.
  - destruct (updateStatements w !! Type_ md), (hasReturningUpdate md); simpl;
      split_answers; reflexivity.
  - destruct (deleteStatements w !! Type_ md); simpl; split_answers; reflexivity.
Qed.

(** On the PostgreSQL dialect an insert without returning columns that
    executes successfully returns id 0 and no error, whatever the result
    holds: [LastInsertId] is not consulted. *)
Theorem doInsert_postgres_reports_no_id (ent : Entity) (db : DB) (md : Metadata)
    (w : World) (result : Result) :
  getMetadata ent = inl md ->
  hasReturningInsert md = false ->
  dbDriver db = driverPostgres ->
  NamedExecContext db
    (cachedOr (insertStatements w) (Type_ md) (insertStatement ent md (dbDriver db)))
    ent = inl result ->
  (doInsert ent db w).1 = (ent, (0, None)).
Proof.
  intros Hmd Hret Hdrv Hexec. apply String.eqb_eq in Hdrv.
  protocol_steps. rewrite Hmd, Hret.
  destruct (insertStatements w !! Type_ md); simpl in *;
    now rewrite Hexec, Hdrv.
Qed.

(** An update without returning columns that executes successfully returns
    no error exactly when the handle reports a number of affected rows
    other than 0 and no error with it; an error of [RowsAffected] comes back
    wrapped under the text [get affected rows, ]. *)
Theorem doUpdate_succeeds_iff_rows_affected (ent : Entity) (db : DB) (md : Metadata)
    (w : World) (result : Result) :
  getMetadata ent = inl md ->
  hasReturningUpdate md = false ->
  NamedExecContext db
    (cachedOr (updateStatements w) (Type_ md) (updateStatement ent md (dbDriver db)))
    ent = inl result ->
  ((doUpdate ent db w).1 = (ent, None) <->
   exists n, RowsAffected result = (n, None) /\ n <> 0) /\
  (forall n e, RowsAffected result = (n, Some e) ->
     (doUpdate ent db w).1 =
     (ent, Some (wrapError ("get affected rows, " +:+ Error e) e))).
Proof.
  intros Hmd Hret Hexec.
  assert (Hres : (doUpdate ent db w).1 =
                 (ent, match RowsAffected result with
                       | (n, Some e) => Some (Errorf_w "get affected rows, " (Some e))
                       | (n, None) => if n =? 0 then Some ErrNoRows else None
                       end)).
  { protocol_steps. rewrite Hmd, Hret.
    destruct (updateStatements w !! Type_ md); simpl in *; rewrite Hexec;
      destruct (RowsAffected result) as [n [e|]]; simpl;
      try reflexivity; now destruct (n =? 0). }
  rewrite Hres. split.
  - destruct (RowsAffected result) as [n [e|]]; split.
    + discriminate.
    + intros [n' [Hn _]]. discriminate.
    + destruct (Z.eqb_spec n 0); [discriminate|]. intros _. now exists n.
    + intros [n' [Hn Hne]]. injection Hn as ->.
      destruct (Z.eqb_spec n' 0); [contradiction | reflexivity].
  - intros n e Hrows. now rewrite Hrows.
Qed.

(** A load whose query gives a row scans it into the entity: when the scan
    succeeds the scanned entity comes back with the error of [rows.Err],
    and when the scan fails its error comes back wrapped under the text
    [scan struct, ]. *)
Theorem doLoad_reads_one_row (ent ent' : Entity) (db : DB) (md : Metadata)
    (w : World) (rows : Rows) (serr : option error) :
  getMetadata ent = inl md ->
  NamedQueryContext db
    (cachedOr (selectStatements w) (Type_ md) (selectStatement ent md (dbDriver db)))
    ent = inl rows ->
  Next rows = true ->
  StructScan rows ent = (ent', serr) ->
  (serr = None -> (doLoad ent db w).1 = (ent', Err rows)) /\
  (forall e, serr = Some e ->
     (doLoad ent db w).1 =
     (ent', Some (wrapError ("scan struct, " +:+ Error e) e))).
Proof.
  intros Hmd Hans Hnext Hscan. split.
  - intros ->. protocol_steps. rewrite Hmd.
    destruct (selectStatements w !! Type_ md); simpl in *;
      now rewrite Hans, Hnext, Hscan.
  - intros e ->. protocol_steps. rewrite Hmd.
    destruct (selectStatements w !! Type_ md); simpl in *;
      now rewrite Hans, Hnext, Hscan.
Qed.

(** An insert or an update with returning columns reads its row as a load
    does: when the handle gives its statement the answer it gives the
    select statement, the entity and the error are those of the load, and
    the insert id is 0. *)
Theorem returning_write_reads_as_load (ent : Entity) (db : DB) (md : Metadata)
    (w : World) :
  getMetadata ent = inl md ->
  let loadAnswer :=
    NamedQueryContext db
      (cachedOr (selectStatements w) (Type_ md) (selectStatement ent md (dbDriver db)))
      ent in
  (hasReturningInsert md = true ->
   NamedQueryContext db
     (cachedOr (insertStatements w) (Type_ md) (insertStatement ent md (dbDriver db)))
     ent = loadAnswer ->
   (doInsert ent db w).1 = ((doLoad ent db w).1.1, (0, (doLoad ent db w).1.2))) /\
  (hasReturningUpdate md = true ->
   NamedQueryContext db
     (cachedOr (updateStatements w) (Type_ md) (updateStatement ent md (dbDriver db)))
     ent = loadAnswer ->
   (doUpdate ent db w).1 = (doLoad ent db w).1).
Proof.
  intros Hmd loadAnswer. subst loadAnswer. split; intros Hret Hsame;
    protocol_steps; rewrite Hmd, Hret.
  - destruct (insertStatements w !! Type_ md), (selectStatements w !! Type_ md);
      simpl in *; rewrite Hsame; split_answers; reflexivity.
  - destruct (updateStatements w !! Type_ md), (selectStatements w !! Type_ md);
      simpl in *; rewrite Hsame; split_answers; reflexivity.
Qed.

End ProtocolOutcomes.

Lemma metadata_error_stops_call_witness :
  @doInsert Fixture.narrowTables Fixture.strangers Fixture.alice
    (Fixture.rowHandle Fixture.strangers driverMysql Fixture.bob None None)
    emptyWorld =
  (Fixture.alice,
   (0, Some (wrapError "get metadata, no primary key" (errorString "no primary key"))),
   emptyWorld).
Proof.
  destruct (@metadata_error_stops_call Fixture.narrowTables Fixture.strangers
              Fixture.alice
              (Fixture.rowHandle Fixture.strangers driverMysql Fixture.bob None None)
              (errorString "no primary key") emptyWorld eq_refl)
    as (_ & Hinsert & _).
  exact Hinsert.
Defined.

Lemma driver_error_passes_through_witness :
  (@doInsert Fixture.narrowTables Fixture.accounts Fixture.alice
     (Fixture.failingHandle Fixture.accounts driverMysql Fixture.duplicateEntry)
     emptyWorld).1 =
  (Fixture.alice, (0, Some Fixture.duplicateEntry)).
Proof.
  destruct (@driver_error_passes_through Fixture.narrowTables Fixture.accounts
              Fixture.alice
              (Fixture.failingHandle Fixture.accounts driverMysql Fixture.duplicateEntry)
              Fixture.accountMetadata emptyWorld Fixture.duplicateEntry eq_refl)
    as (_ & _ & Hinsert & _).
  apply Hinsert; reflexivity.
Defined.

Lemma one_handle_call_per_operation_witness :
  dbCalls (@doDelete Fixture.narrowTables Fixture.accounts Fixture.alice
             (Fixture.idleHandle driverMysql) emptyWorld).2 =
  [ExecCall "DELETE FROM `account` WHERE `id` = :id"].
Proof.
  destruct (@one_handle_call_per_operation Fixture.narrowTables Fixture.accounts
              Fixture.alice (Fixture.idleHandle driverMysql)
              Fixture.accountMetadata emptyWorld eq_refl)
    as (_ & _ & _ & Hdelete).
  exact Hdelete.
Defined.

Lemma doInsert_postgres_reports_no_id_witness :
  (@doInsert Fixture.narrowTables Fixture.accounts Fixture.alice
     (Fixture.idleHandle "pgx") emptyWorld).1 = (Fixture.alice, (0, None)).
Proof.
  apply (@doInsert_postgres_reports_no_id Fixture.narrowTables Fixture.accounts
           Fixture.alice (Fixture.idleHandle "pgx") Fixture.accountMetadata emptyWorld
           {| LastInsertId := (7, None); RowsAffected := (0, None) |}).
  - reflexivity.
  - reflexivity.
  - vm_compute. reflexivity.
  - reflexivity.
Defined.

Lemma doUpdate_succeeds_iff_rows_affected_witness :
  (@doUpdate Fixture.narrowTables Fixture.accounts Fixture.alice
     (Fixture.rowHandle Fixture.accounts driverMysql Fixture.bob None None)
     emptyWorld).1 = (Fixture.alice, None).
Proof.
  destruct (@doUpdate_succeeds_iff_rows_affected Fixture.narrowTables Fixture.accounts
              Fixture.alice
              (Fixture.rowHandle Fixture.accounts driverMysql Fixture.bob None None)
              Fixture.accountMetadata emptyWorld
              {| LastInsertId := (7, None); RowsAffected := (1, None) |}
              eq_refl eq_refl eq_refl)
    as (Hiff & _).
  apply Hiff. exists 1. split; [reflexivity | discriminate].
Defined.

Lemma doLoad_reads_one_row_witness :
  (@doLoad Fixture.narrowTables Fixture.accounts Fixture.alice
     (Fixture.rowHandle Fixture.accounts driverMysql Fixture.bob None None)
     emptyWorld).1 = (Fixture.bob, None).
Proof.
  destruct (@doLoad_reads_one_row Fixture.narrowTables Fixture.accounts
              Fixture.alice Fixture.bob
              (Fixture.rowHandle Fixture.accounts driverMysql Fixture.bob None None)
              Fixture.accountMetadata emptyWorld
              (@Build_Rows Fixture.accounts true (fun _ => (Fixture.bob, None)) None)
              None eq_refl eq_refl eq_refl eq_refl)
    as (Hok & _).
  now apply Hok.
Defined.

Lemma returning_write_reads_as_load_witness :
  (@doInsert Fixture.narrowTables Fixture.stamped Fixture.alice
     (Fixture.rowHandle Fixture.stamped driverPostgres Fixture.bob None None)
     emptyWorld).1 =
  (Fixture.bob, (0, None)).
Proof.
  destruct (@returning_write_reads_as_load Fixture.narrowTables Fixture.stamped
              Fixture.alice
              (Fixture.rowHandle Fixture.stamped driverPostgres Fixture.bob None None)
              Fixture.stampedMetadata emptyWorld eq_refl)
    as (Hinsert & _).
  apply Hinsert; reflexivity.
Defined.

(** ** The statement maps and the call log over a run *)

Section RunInvariants.
Context `{PrintTables} `{Entities}.

Lemma Kind_eq_or_not (k k' : Kind) : k = k' \/ k <> k'.
Proof. destruct k, k'; auto; right; discriminate. Qed.

(** A call for a type whose statement is stored leaves the four maps as
    they are. *)
Lemma run_hit (k : Kind) (ent : Entity) (db : DB) (md : Metadata) (stmt : string)
    (w : World) (k' : Kind) :
  getMetadata ent = inl md ->
  cacheOf k w !! Type_ md = Some stmt ->
  cacheOf k' (run (Call k ent db) w) = cacheOf k' w.
Proof.
  intros Hmd Hhit. destruct (run_world k ent db md w Hmd) as (Hsame & Hother & _).
  destruct (Kind_eq_or_not k' k) as [->|Hne]; [|now apply Hother].
  rewrite Hsame. unfold cachedOr. rewrite Hhit. simpl. now apply insert_id.
Qed.

Lemma run_keeps_built (op : Op) (w : World) :
  (forall k t stmt, cacheOf k w !! t = Some stmt -> builtBy k t stmt) ->
  forall k t stmt, cacheOf k (run op w) !! t = Some stmt -> builtBy k t stmt.
Proof.
  intros Hinv k t stmt. destruct op as [k0 ent db].
  destruct (getMetadata ent) as [md|err] eqn:Hmd.
  - destruct (run_world k0 ent db md w Hmd) as (Hsame & Hother & _).
    destruct (Kind_eq_or_not k k0) as [->|Hne].
    + rewrite Hsame. destruct (decide (Type_ md = t)) as [<-|Hnt].
      * rewrite lookup_insert_eq. intros [= <-]. unfold cachedOr.
        destruct (cacheOf k0 w !! Type_ md) as [s|] eqn:Hs; simpl.
        -- now apply Hinv.
        -- now exists ent, db, md.
      * rewrite lookup_insert_ne by assumption. apply Hinv.
    + rewrite Hother by assumption. apply Hinv.
  - rewrite (run_metadata_error _ _ _ err) by assumption. apply Hinv.
Qed.

Lemma run_calls (op : Op) (w : World) :
  length (dbCalls (run op w)) =
  (length (dbCalls w) + if reaches op then 1 else 0)%nat.
Proof.
  destruct op as [k ent db]. unfold reaches.
  destruct (getMetadata ent) as [md|err] eqn:Hmd.
  - destruct (run_world k ent db md w Hmd) as (_ & _ & c & Hc & _).
    rewrite Hc. simpl. now rewrite Nat.add_1_r.
  - rewrite (run_metadata_error _ _ _ err) by assumption. now rewrite Nat.add_0_r.
Qed.

(** Whatever operations have run since the maps were empty, every stored
    statement is the text that the builder of its kind makes for an entity
    of the type it is stored under, with the dialect of some handle: the
    maps hold nothing else. *)
Theorem cached_statements_are_built (ops : list Op) (k : Kind) (t stmt : string) :
  cacheOf k (runAll ops emptyWorld) !! t = Some stmt -> builtBy k t stmt.
Proof.
  assert (Hgen : forall w,
             (forall k t stmt, cacheOf k w !! t = Some stmt -> builtBy k t stmt) ->
             forall k t stmt,
               cacheOf k (runAll ops w) !! t = Some stmt -> builtBy k t stmt).
  { induction ops as [|op ops IH]; intros w Hinv; [exact Hinv|].
    simpl. apply IH. now apply run_keeps_built. }
  apply Hgen. intros k0 t0 stmt0. destruct k0; simpl; now rewrite lookup_empty.
Qed.

(** Over any sequence of operations the handle calls number exactly the
    operations that got past their metadata lookup: no operation calls a
    handle twice, and none retries. *)
Theorem one_call_per_reached_operation (ops : list Op) (w : World) :
  length (dbCalls (runAll ops w)) =
  (length (dbCalls w) + length (List.filter reaches ops))%nat.
Proof.
  revert w. induction ops as [|op ops IH]; intros w; simpl.
  - now rewrite Nat.add_0_r.
  - rewrite IH, run_calls. destruct (reaches op); simpl; lia.
Qed.

(** A statement is built at most once for a type and a kind: when a call
    is repeated, with the same handle or another one, the second call
    leaves the four statement maps as the first one left them. *)
Theorem repeated_call_builds_nothing (k k' : Kind) (ent : Entity) (db db' : DB)
    (w : World) :
  cacheOf k' (run (Call k ent db') (run (Call k ent db) w)) =
  cacheOf k' (run (Call k ent db) w).
Proof.
  destruct (getMetadata ent) as [md|err] eqn:Hmd.
  - destruct (run_world k ent db md w Hmd) as (Hsame & _).
    apply (run_hit k ent db' md
             (cachedOr (cacheOf k w) (Type_ md) (build k ent md (dbDriver db))));
      [assumption|].
    rewrite Hsame. apply lookup_insert_eq.
  - now rewrite !(run_metadata_error _ _ _ err).
Qed.

End RunInvariants.

Lemma cached_statements_are_built_witness :
  @builtBy Fixture.narrowTables Fixture.accounts Delete "Account"
    "DELETE FROM `account` WHERE `id` = :id".
Proof.
  apply (@cached_statements_are_built Fixture.narrowTables Fixture.accounts
           [@Call Fixture.accounts Delete Fixture.alice (Fixture.idleHandle driverMysql);
            @Call Fixture.accounts Delete Fixture.bob (Fixture.idleHandle "pgx")]
           Delete "Account").
  vm_compute. reflexivity.
Defined.
